(** * music-app-api: the playlist viewsets ([app/playlist/views.py])

    A shallow embedding of the three viewsets of the playlist app
    ([PlaylistViewSet], [TagViewSet], [SongViewSet]) together with the small
    part of Django and of the REST framework they rest on: tables keyed by
    primary key, query sets, token authentication, the [IsAuthenticated]
    permission, the router and the model mixins. *)

From stdpp Require Import base gmap sets list strings sorting.
From Stdlib Require Import ZArith.

Local Open Scope string_scope.
Local Open Scope nat_scope.

(** ** [core.models] *)

(** Modelled from the spec: [core/models.py] is not among the sources; the
    models and their columns are those of section 3 of the specification
    and of the [objects.create] calls in [tests/test_songs_api.py].  A user
    is referred to by its primary key. *)
Definition User := nat.

#[global] Instance User_eq_dec : EqDecision User := Nat.eq_dec.

(** Modelled from the spec: the model [Song] of [core/models.py], with its
    name, its artist (the empty string when none is given) and its owning
    user. *)
Record Song := mkSong {
  song_name : string;
  song_artist : string;
  song_user : User;
}.

(** Modelled from the spec: the model [Tag] of [core/models.py]. *)
Record Tag := mkTag {
  tag_name : string;
  tag_user : User;
}.

(** Modelled from the spec: the model [Playlist] of [core/models.py]; its
    songs and tags are in the through tables of the store. *)
Record Playlist := mkPlaylist {
  title : string;
  time_minutes : Z;
  general_genre : string;
  playlist_user : User;
}.

(** The database.  Every table maps a primary key to its row, so primary
    keys are unique by construction.  The two many-to-many fields of
    [Playlist] are the through tables [playlist_songs] and [playlist_tags],
    holding pairs (playlist id, song id) and (playlist id, tag id).
    [Token_objects] is the table of [rest_framework.authtoken]: key to user. *)
Record Store := mkStore {
  Song_objects : gmap nat Song;
  Tag_objects : gmap nat Tag;
  Playlist_objects : gmap nat Playlist;
  playlist_songs : gset (nat * nat);
  playlist_tags : gset (nat * nat);
  Token_objects : gmap string User;
}.

Definition set_Song_objects (t : gmap nat Song) (st : Store) : Store :=
  mkStore t (Tag_objects st) (Playlist_objects st)
          (playlist_songs st) (playlist_tags st) (Token_objects st).

Definition set_Tag_objects (t : gmap nat Tag) (st : Store) : Store :=
  mkStore (Song_objects st) t (Playlist_objects st)
          (playlist_songs st) (playlist_tags st) (Token_objects st).

Definition set_Playlist_objects (t : gmap nat Playlist) (st : Store) : Store :=
  mkStore (Song_objects st) (Tag_objects st) t
          (playlist_songs st) (playlist_tags st) (Token_objects st).

Definition set_playlist_songs (r : gset (nat * nat)) (st : Store) : Store :=
  mkStore (Song_objects st) (Tag_objects st) (Playlist_objects st)
          r (playlist_tags st) (Token_objects st).

Definition set_playlist_tags (r : gset (nat * nat)) (st : Store) : Store :=
  mkStore (Song_objects st) (Tag_objects st) (Playlist_objects st)
          (playlist_songs st) r (Token_objects st).

(** The key an [AutoField] gives to a new row: one above the largest key in
    use. *)
Definition next_pk {A} (t : gmap nat A) : nat :=
  S (max_list (fst <$> map_to_list t)).

(** ** Query sets *)

(** A query set is the list of the rows it selects, each with its primary
    key. *)
Module QuerySet.
Section queryset.
Context {A : Type}.

(** [Model.objects.all()] *)
Definition all (objects : gmap nat A) : list (nat * A) :=
  map_to_list objects.

(** [.filter(user=u)] *)
Definition filter_user (user : A → User) (u : User)
    (qs : list (nat * A)) : list (nat * A) :=
  filter (λ r, user r.2 = u) qs.

(** [.order_by('-id')] *)
Definition desc_id (r1 r2 : nat * A) : Prop := r2.1 ≤ r1.1.

#[global] Instance desc_id_dec : RelDecision desc_id.
Proof. intros r1 r2. unfold desc_id. apply _. Defined.

Definition order_by_desc_id (qs : list (nat * A)) : list (nat * A) :=
  merge_sort desc_id qs.

(** [.order_by('-name')]; names are compared byte by byte. *)
Definition desc_name (name : A → string) (r1 r2 : nat * A) : Prop :=
  String.le (name r2.2) (name r1.2).

#[global] Instance desc_name_dec name : RelDecision (desc_name name).
Proof. intros r1 r2. unfold desc_name. apply _. Defined.

Definition order_by_desc_name (name : A → string)
    (qs : list (nat * A)) : list (nat * A) :=
  merge_sort (desc_name name) qs.

(** [.get(pk=pk)], [None] for [DoesNotExist]. *)
Definition get (pk : nat) (qs : list (nat * A)) : option (nat * A) :=
  head (filter (λ r, r.1 = pk) qs).

End queryset.
End QuerySet.

(** ** [rest_framework]: requests, responses, authentication *)

Inductive Method := GET | POST | PUT | PATCH | DELETE.

(** The two routes a router registers for a viewset: [<basename>-list] and
    [<basename>-detail] with its [pk] argument. *)
Inductive Route := list_route | detail_route (pk : nat).

(** [HTTP_AUTHORIZATION] is the key of an [Authorization: Token <key>]
    header, when the request carries one. *)
Record Request (D : Type) := mkRequest {
  method : Method;
  route : Route;
  HTTP_AUTHORIZATION : option string;
  query_params : gmap string string;
  data : D;
}.
Arguments mkRequest {D}.
Arguments method {D}.
Arguments route {D}.
Arguments HTTP_AUTHORIZATION {D}.
Arguments query_params {D}.
Arguments data {D}.

(** What a response carries: nothing, an error detail, the fields refused
    by validation, one serialized object or a list of them. *)
Inductive Content (R : Type) :=
  | Empty
  | Detail (msg : string)
  | Errors (fields : list string)
  | Object (r : R)
  | Array (l : list R).
Arguments Empty {R}.
Arguments Detail {R}.
Arguments Errors {R}.
Arguments Object {R}.
Arguments Array {R}.

Record Response (R : Type) := mkResponse {
  status_code : nat;
  content : Content R;
}.
Arguments mkResponse {R}.
Arguments status_code {R}.
Arguments content {R}.

(** The serialized resources a response carries. *)
Definition resources {R} (c : Content R) : list R :=
  match c with
  | Object r => [r]
  | Array l => l
  | _ => []
  end.

Definition HTTP_200_OK := 200.
Definition HTTP_201_CREATED := 201.
Definition HTTP_204_NO_CONTENT := 204.
Definition HTTP_400_BAD_REQUEST := 400.
Definition HTTP_401_UNAUTHORIZED := 401.
Definition HTTP_403_FORBIDDEN := 403.
Definition HTTP_404_NOT_FOUND := 404.
Definition HTTP_405_METHOD_NOT_ALLOWED := 405.
Definition HTTP_500_INTERNAL_SERVER_ERROR := 500.

(** The outcome of an authentication class: it did not apply (no
    credentials), it recognised a user, or it raised
    [AuthenticationFailed]. *)
Inductive AuthResult := NoCredentials | Success (u : User) | Failed.

(** An authentication class: its [authenticate] method, on the store and
    the [Authorization] header, and its [authenticate_header], when it has
    one. *)
Record Authenticator := mkAuthenticator {
  authenticate : Store → option string → AuthResult;
  authenticate_header : option string;
}.

(** [TokenAuthentication]: without the header the class does not apply;
    with it the key must be one of the token table. *)
Definition TokenAuthentication : Authenticator :=
  mkAuthenticator
    (λ st header,
       match header with
       | None => NoCredentials
       | Some key =>
           match Token_objects st !! key with
           | Some u => Success u
           | None => Failed
           end
       end)
    (Some "Token").

(** [Request._authenticate]: the classes are tried in turn, up to the first
    that applies. *)
Fixpoint perform_authentication (authentication_classes : list Authenticator)
    (st : Store) (header : option string) : AuthResult :=
  match authentication_classes with
  | [] => NoCredentials
  | authenticator :: rest =>
      match authenticate authenticator st header with
      | NoCredentials => perform_authentication rest st header
      | result => result
      end
  end.

(** [request.user]; [None] is the anonymous user. *)
Definition user_of (auth : AuthResult) : option User :=
  match auth with
  | Success u => Some u
  | _ => None
  end.

(** A permission class: its [has_permission], on [request.user]. *)
Definition Permission : Type := option User → bool.

Definition IsAuthenticated : Permission := λ user,
  match user with
  | Some _ => true
  | None => false
  end.

(** The status of a request that is not authenticated: 401 when the first
    authentication class has an [authenticate_header], 403 otherwise. *)
Definition not_authenticated_status
    (authentication_classes : list Authenticator) : nat :=
  match authentication_classes with
  | authenticator :: _ =>
      match authenticate_header authenticator with
      | Some _ => HTTP_401_UNAUTHORIZED
      | None => HTTP_403_FORBIDDEN
      end
  | [] => HTTP_403_FORBIDDEN
  end.

(** [APIView.initial]: the request is authenticated, then every permission
    is checked.  It answers the response of a refusal, or [request.user]. *)
Definition initial {D R} (authentication_classes : list Authenticator)
    (permission_classes : list Permission) (st : Store) (req : Request D)
    : Response R + option User :=
  match perform_authentication authentication_classes st
          (HTTP_AUTHORIZATION req) with
  | Failed =>
      inl (mkResponse (not_authenticated_status authentication_classes)
             (Detail "Invalid token."))
  | auth =>
      let user := user_of auth in
      if forallb (λ permission : Permission, permission user)
                 permission_classes
      then inr user
      else
        match user with
        | None =>
            inl (mkResponse (not_authenticated_status authentication_classes)
                   (Detail "Authentication credentials were not provided."))
        | Some _ =>
            inl (mkResponse HTTP_403_FORBIDDEN
                   (Detail "You do not have permission to perform this action."))
        end
  end.

(** ** [rest_framework]: actions, serializers, mixins, viewsets *)

(** The actions of a viewset; the detail actions carry the [pk] of the
    URL. *)
Inductive Action :=
  | Alist
  | Acreate
  | Aretrieve (pk : nat)
  | Aupdate (pk : nat)
  | Apartial_update (pk : nat)
  | Adestroy (pk : nat).

(** The router's table from method and route to action. *)
Definition router (m : Method) (r : Route) : option Action :=
  match r, m with
  | list_route, GET => Some Alist
  | list_route, POST => Some Acreate
  | detail_route pk, GET => Some (Aretrieve pk)
  | detail_route pk, PUT => Some (Aupdate pk)
  | detail_route pk, PATCH => Some (Apartial_update pk)
  | detail_route pk, DELETE => Some (Adestroy pk)
  | _, _ => None
  end.

(** A serializer for rows [A], reading request data [D] into validated data
    [V] and rendering rows as [R].  [run_validation] takes the [partial]
    flag and answers the refused fields or the validated data; [create] and
    [update] take the user of the serializer's context; [create] answers
    [None] when the row cannot be inserted. *)
Record Serializer (A D V R : Type) := mkSerializer {
  run_validation : bool → D → list string + V;
  to_representation : Store → nat * A → R;
  create : User → V → Store → option ((nat * A) * Store);
  update : User → nat * A → V → Store → (nat * A) * Store;
}.
Arguments mkSerializer {A D V R}.
Arguments run_validation {A D V R}.
Arguments to_representation {A D V R}.
Arguments create {A D V R}.
Arguments update {A D V R}.

(** What a generic view is configured with: the methods a viewset class
    defines or inherits. [perform_destroy] is [instance.delete()]. *)
Record GenericAPIView (A D V R : Type) := mkGenericAPIView {
  get_queryset : User → Store → list (nat * A);
  get_serializer_class : Action → Serializer A D V R;
  perform_create :
    Serializer A D V R → User → V → Store → option ((nat * A) * Store);
  perform_update :
    Serializer A D V R → User → nat * A → V → Store → (nat * A) * Store;
  perform_destroy : nat * A → Store → Store;
}.
Arguments mkGenericAPIView {A D V R}.
Arguments get_queryset {A D V R}.
Arguments get_serializer_class {A D V R}.
Arguments perform_create {A D V R}.
Arguments perform_update {A D V R}.
Arguments perform_destroy {A D V R}.

(** A handler runs for an authenticated user. *)
Definition Handler (D R : Type) : Type :=
  User → Request D → Store → Response R * Store.

(** A viewset class, seen as the actions it has a method for. *)
Definition ViewSet (D R : Type) : Type := Action → option (Handler D R).

Module mixins.
Section mixins.
Context {A D V R : Type}.
Variable self : GenericAPIView A D V R.

(** [GenericAPIView.get_object]: the row is looked up in
    [self.get_queryset()]. *)
Definition get_object (u : User) (pk : nat) (st : Store) : option (nat * A) :=
  QuerySet.get pk (get_queryset self u st).

Definition not_found : Response R :=
  mkResponse HTTP_404_NOT_FOUND (Detail "Not found.").

Definition list : Handler D R := λ u req st,
  let serializer := get_serializer_class self Alist in
  (mkResponse HTTP_200_OK
     (Array (to_representation serializer st <$> get_queryset self u st)),
   st).

Definition retrieve (pk : nat) : Handler D R := λ u req st,
  match get_object u pk st with
  | None => (not_found, st)
  | Some instance =>
      let serializer := get_serializer_class self (Aretrieve pk) in
      (mkResponse HTTP_200_OK
         (Object (to_representation serializer st instance)), st)
  end.

Definition create : Handler D R := λ u req st,
  let serializer := get_serializer_class self Acreate in
  match run_validation serializer false (data req) with
  | inl errors => (mkResponse HTTP_400_BAD_REQUEST (Errors errors), st)
  | inr validated_data =>
      match perform_create self serializer u validated_data st with
      | None => (mkResponse HTTP_500_INTERNAL_SERVER_ERROR Empty, st)
      | Some (instance, st') =>
          (mkResponse HTTP_201_CREATED
             (Object (to_representation serializer st' instance)), st')
      end
  end.

Definition update (partial : bool) (action : Action) (pk : nat)
    : Handler D R := λ u req st,
  match get_object u pk st with
  | None => (not_found, st)
  | Some instance =>
      let serializer := get_serializer_class self action in
      match run_validation serializer partial (data req) with
      | inl errors => (mkResponse HTTP_400_BAD_REQUEST (Errors errors), st)
      | inr validated_data =>
          let '(instance', st') :=
            perform_update self serializer u instance validated_data st in
          (mkResponse HTTP_200_OK
             (Object (to_representation serializer st' instance')), st')
      end
  end.

Definition partial_update (pk : nat) : Handler D R :=
  update true (Apartial_update pk) pk.

Definition destroy (pk : nat) : Handler D R := λ u req st,
  match get_object u pk st with
  | None => (not_found, st)
  | Some instance =>
      (mkResponse HTTP_204_NO_CONTENT Empty, perform_destroy self instance st)
  end.

Definition CreateModelMixin : ViewSet D R := λ a,
  match a with
  | Acreate => Some create
  | _ => None
  end.

Definition RetrieveModelMixin : ViewSet D R := λ a,
  match a with
  | Aretrieve pk => Some (retrieve pk)
  | _ => None
  end.

Definition UpdateModelMixin : ViewSet D R := λ a,
  match a with
  | Aupdate pk => Some (update false (Aupdate pk) pk)
  | Apartial_update pk => Some (partial_update pk)
  | _ => None
  end.

Definition DestroyModelMixin : ViewSet D R := λ a,
  match a with
  | Adestroy pk => Some (destroy pk)
  | _ => None
  end.

Definition ListModelMixin : ViewSet D R := λ a,
  match a with
  | Alist => Some list
  | _ => None
  end.

End mixins.
End mixins.

Module viewsets.
Section viewsets.
Context {A D V R : Type}.

(** [GenericViewSet] has no action of its own. *)
Definition GenericViewSet : ViewSet D R := λ _, None.

(** A class with several bases: an action is taken from the first base
    that has it. *)
Definition inherit (bases : list (ViewSet D R)) : ViewSet D R := λ a,
  foldr (λ base rest, match base a with Some h => Some h | None => rest end)
        None bases.

Definition ModelViewSet (self : GenericAPIView A D V R) : ViewSet D R :=
  inherit [mixins.CreateModelMixin self; mixins.RetrieveModelMixin self;
           mixins.UpdateModelMixin self; mixins.DestroyModelMixin self;
           mixins.ListModelMixin self; GenericViewSet].

Definition method_not_allowed : Response R :=
  mkResponse HTTP_405_METHOD_NOT_ALLOWED (Detail "Method not allowed.").

(** [as_view] and [APIView.dispatch]: authentication and permissions come
    first; then the method is bound to the action the router gives it, and
    answered 405 when the class has no such action.  The handlers filter by
    [request.user]: with the anonymous user they raise, which is answered
    500. *)
Definition as_view (authentication_classes : list Authenticator)
    (permission_classes : list Permission) (cls : ViewSet D R)
    (st : Store) (req : Request D) : Response R * Store :=
  match initial authentication_classes permission_classes st req with
  | inl denied => (denied, st)
  | inr user =>
      match router (method req) (route req) with
      | None => (method_not_allowed, st)
      | Some a =>
          match cls a, user with
          | None, _ => (method_not_allowed, st)
          | Some handler, Some u => handler u req st
          | Some handler, None =>
              (mkResponse HTTP_500_INTERNAL_SERVER_ERROR Empty, st)
          end
      end
  end.

End viewsets.
End viewsets.

(** [serializer.save] with keyword arguments, on a serializer without
    instance: the keyword arguments are merged over the validated data,
    then the row is created. *)
Definition save_new {A D V R} (serializer : Serializer A D V R)
    (kwargs : V → V) (context_user : User) (validated_data : V) (st : Store)
    : option ((nat * A) * Store) :=
  create serializer context_user (kwargs validated_data) st.

(** [serializer.save()] on a serializer with an instance. *)
Definition save_instance {A D V R} (serializer : Serializer A D V R)
    (context_user : User) (instance : nat * A) (validated_data : V)
    (st : Store) : (nat * A) * Store :=
  update serializer context_user instance validated_data st.

(** ** Rows: saving, deleting, setting attributes *)

Definition Song_save (r : nat * Song) (st : Store) : Store :=
  set_Song_objects (<[r.1 := r.2]> (Song_objects st)) st.

Definition Tag_save (r : nat * Tag) (st : Store) : Store :=
  set_Tag_objects (<[r.1 := r.2]> (Tag_objects st)) st.

Definition Playlist_save (r : nat * Playlist) (st : Store) : Store :=
  set_Playlist_objects (<[r.1 := r.2]> (Playlist_objects st)) st.

(** [instance.delete()]: the row goes, and with it the rows of the through
    tables that refer to it. *)
Definition Song_delete (r : nat * Song) (st : Store) : Store :=
  set_playlist_songs (filter (λ x, x.2 ≠ r.1) (playlist_songs st))
    (set_Song_objects (delete r.1 (Song_objects st)) st).

Definition Tag_delete (r : nat * Tag) (st : Store) : Store :=
  set_playlist_tags (filter (λ x, x.2 ≠ r.1) (playlist_tags st))
    (set_Tag_objects (delete r.1 (Tag_objects st)) st).

Definition Playlist_delete (r : nat * Playlist) (st : Store) : Store :=
  set_playlist_tags (filter (λ x, x.1 ≠ r.1) (playlist_tags st))
    (set_playlist_songs (filter (λ x, x.1 ≠ r.1) (playlist_songs st))
       (set_Playlist_objects (delete r.1 (Playlist_objects st)) st)).

Definition Song_setattr (s : Song) (attr value : string) : Song :=
  if decide (attr = "name") then mkSong value (song_artist s) (song_user s)
  else if decide (attr = "artist") then mkSong (song_name s) value (song_user s)
  else s.

Definition Song_getattr (s : Song) (attr : string) : option string :=
  if decide (attr = "name") then Some (song_name s)
  else if decide (attr = "artist") then Some (song_artist s)
  else None.

Definition Tag_setattr (t : Tag) (attr value : string) : Tag :=
  if decide (attr = "name") then mkTag value (tag_user t) else t.

(** ** [playlist.serializers] *)

(** Modelled from the spec: [playlist/serializers.py] is not among the
    sources.  The serialized fields are those of section 6 ([id],
    [name], [artist] for a song; [id], [title], [time_minutes],
    [general_genre] and, in the detailed form only, the nested songs and
    tags for a playlist); the owning user is not among them. *)
Record SongData := mkSongData {
  sd_id : nat;
  sd_name : string;
  sd_artist : string;
}.

(** Modelled from the spec: the serialized form of a tag, its [id] and
    [name]. *)
Record TagData := mkTagData {
  td_id : nat;
  td_name : string;
}.

(** Modelled from the spec: the serialized form of a playlist; the nested
    songs and tags are absent from the summary. *)
Record PlaylistData := mkPlaylistData {
  pd_id : nat;
  pd_title : string;
  pd_time_minutes : Z;
  pd_general_genre : string;
  pd_songs : option (list SongData);
  pd_tags : option (list TagData);
}.

(** Modelled from the spec: a serializer of a model whose writable fields
    hold strings, as [SongSerializer] and [TagSerializer].  Request data is
    a dictionary from field names to strings.  Validation refuses a full
    update that lacks a required field (section 7) and keeps the declared
    fields that the request supplies, in the order of their declaration;
    an update sets each of them on the instance and saves it.  The owning
    user is not a field, so [create] has no owner to insert the row with. *)
Module ModelSerializer.
Section model_serializer.
Context {A R : Type}.
Variable fields : list string.
Variable required : list string.
Variable setattr : A → string → string → A.
Variable save : nat * A → Store → Store.
Variable repr : nat * A → R.

Definition run_validation (partial : bool) (d : gmap string string)
    : list string + list (string * string) :=
  let missing := filter (λ f, d !! f = None) required in
  if negb partial && bool_decide (missing ≠ []) then inl missing
  else inr (omap (λ f, pair f <$> d !! f) fields).

Definition update (context_user : User) (instance : nat * A)
    (validated_data : list (string * string)) (st : Store)
    : (nat * A) * Store :=
  let row := foldl (λ a av, setattr a av.1 av.2) instance.2 validated_data in
  ((instance.1, row), save (instance.1, row) st).

Definition cls : Serializer A (gmap string string) (list (string * string)) R :=
  mkSerializer run_validation (λ _, repr) (λ _ _ _, None) update.

End model_serializer.
End ModelSerializer.

Definition Song_data (r : nat * Song) : SongData :=
  mkSongData r.1 (song_name r.2) (song_artist r.2).

Definition Tag_data (r : nat * Tag) : TagData :=
  mkTagData r.1 (tag_name r.2).

(** Modelled from the spec: [SongSerializer] of [playlist/serializers.py],
    with the fields [name] (required) and [artist]. *)
Definition SongSerializer
    : Serializer Song (gmap string string) (list (string * string)) SongData :=
  ModelSerializer.cls ["name"; "artist"] ["name"] Song_setattr Song_save
    Song_data.

(** Modelled from the spec: [TagSerializer] of [playlist/serializers.py],
    with the field [name]. *)
Definition TagSerializer
    : Serializer Tag (gmap string string) (list (string * string)) TagData :=
  ModelSerializer.cls ["name"] ["name"] Tag_setattr Tag_save Tag_data.

(** Modelled from the spec: the request data of the playlist resource
    (section 4.1): [title], [time_minutes], [general_genre], the optional
    nested songs (name and artist) and tags (name), each present or not;
    [p_user] is a [user] entry, which a client may send and which
    [serializer.save(user=...)] sets. *)
Record PlaylistPayload := mkPlaylistPayload {
  p_title : option string;
  p_time_minutes : option Z;
  p_general_genre : option string;
  p_songs : option (list (string * string));
  p_tags : option (list string);
  p_user : option User;
}.

(** The validated data with its [user] entry set to [u]. *)
Definition with_user (u : User) (vd : PlaylistPayload) : PlaylistPayload :=
  mkPlaylistPayload (p_title vd) (p_time_minutes vd) (p_general_genre vd)
    (p_songs vd) (p_tags vd) (Some u).

(** Modelled from the spec: nested writes create the songs and tags they
    name for the authenticated requester (sections 3 and 4.2); a row of the
    requester that already holds the same values is used again. *)
Definition Song_get_or_create (u : User) (na : string * string) (st : Store)
    : nat * Store :=
  match filter (λ r : nat * Song,
                  song_user r.2 = u ∧ song_name r.2 = na.1
                  ∧ song_artist r.2 = na.2)
               (map_to_list (Song_objects st)) with
  | r :: _ => (r.1, st)
  | [] =>
      let pk := next_pk (Song_objects st) in
      (pk, Song_save (pk, mkSong na.1 na.2 u) st)
  end.

(** Modelled from the spec: the nested write of a tag, as that of a
    song. *)
Definition Tag_get_or_create (u : User) (n : string) (st : Store)
    : nat * Store :=
  match filter (λ r : nat * Tag, tag_user r.2 = u ∧ tag_name r.2 = n)
               (map_to_list (Tag_objects st)) with
  | r :: _ => (r.1, st)
  | [] =>
      let pk := next_pk (Tag_objects st) in
      (pk, Tag_save (pk, mkTag n u) st)
  end.

Definition add_songs (u : User) (playlist : nat)
    (songs : list (string * string)) (st : Store) : Store :=
  foldl (λ st na,
           let '(song, st1) := Song_get_or_create u na st in
           set_playlist_songs ({[ (playlist, song) ]} ∪ playlist_songs st1) st1)
        st songs.

Definition add_tags (u : User) (playlist : nat) (tags : list string)
    (st : Store) : Store :=
  foldl (λ st n,
           let '(tag, st1) := Tag_get_or_create u n st in
           set_playlist_tags ({[ (playlist, tag) ]} ∪ playlist_tags st1) st1)
        st tags.

(** [playlist.songs.clear()] and [playlist.tags.clear()] *)
Definition clear_songs (playlist : nat) (st : Store) : Store :=
  set_playlist_songs (filter (λ x, x.1 ≠ playlist) (playlist_songs st)) st.

Definition clear_tags (playlist : nat) (st : Store) : Store :=
  set_playlist_tags (filter (λ x, x.1 ≠ playlist) (playlist_tags st)) st.

(** [Playlist.objects.create] with the validated fields: every column is
    needed. *)
Definition Playlist_create (vd : PlaylistPayload) (st : Store)
    : option ((nat * Playlist) * Store) :=
  match p_title vd, p_time_minutes vd, p_general_genre vd, p_user vd with
  | Some t, Some m, Some g, Some u =>
      let pk := next_pk (Playlist_objects st) in
      Some ((pk, mkPlaylist t m g u), Playlist_save (pk, mkPlaylist t m g u) st)
  | _, _, _, _ => None
  end.

Definition Playlist_setattrs (p : Playlist) (vd : PlaylistPayload) : Playlist :=
  mkPlaylist (default (title p) (p_title vd))
             (default (time_minutes p) (p_time_minutes vd))
             (default (general_genre p) (p_general_genre vd))
             (default (playlist_user p) (p_user vd)).

(** Modelled from the spec: the two playlist serializers.  They validate,
    create and update alike and differ in the representation: the summary
    of [PlaylistSerializer], and the detailed one of
    [PlaylistDetailSerializer] with the nested songs and tags. *)
Module PlaylistSerializer.

Definition absent {X} (field : string) (value : option X) : list string :=
  match value with
  | Some _ => []
  | None => [field]
  end.

Definition missing (d : PlaylistPayload) : list string :=
  absent "title" (p_title d)
  ++ absent "time_minutes" (p_time_minutes d)
  ++ absent "general_genre" (p_general_genre d).

(** The user is no field of the serializer: validated data has no [user]
    entry of the client's. *)
Definition run_validation (partial : bool) (d : PlaylistPayload)
    : list string + PlaylistPayload :=
  if negb partial && bool_decide (missing d ≠ []) then inl (missing d)
  else inr (mkPlaylistPayload (p_title d) (p_time_minutes d)
              (p_general_genre d) (p_songs d) (p_tags d) None).

Definition create (context_user : User) (vd : PlaylistPayload) (st : Store)
    : option ((nat * Playlist) * Store) :=
  match Playlist_create vd st with
  | None => None
  | Some (instance, st1) =>
      let st2 := add_songs context_user instance.1 (default [] (p_songs vd)) st1 in
      let st3 := add_tags context_user instance.1 (default [] (p_tags vd)) st2 in
      Some (instance, st3)
  end.

Definition update (context_user : User) (instance : nat * Playlist)
    (vd : PlaylistPayload) (st : Store) : (nat * Playlist) * Store :=
  let st1 :=
    match p_songs vd with
    | None => st
    | Some songs =>
        add_songs context_user instance.1 songs (clear_songs instance.1 st)
    end in
  let st2 :=
    match p_tags vd with
    | None => st1
    | Some tags =>
        add_tags context_user instance.1 tags (clear_tags instance.1 st1)
    end in
  let row := Playlist_setattrs instance.2 vd in
  ((instance.1, row), Playlist_save (instance.1, row) st2).

Definition songs_of (st : Store) (playlist : nat) : list SongData :=
  Song_data <$> filter (λ r : nat * Song, (playlist, r.1) ∈ playlist_songs st)
                       (map_to_list (Song_objects st)).

Definition tags_of (st : Store) (playlist : nat) : list TagData :=
  Tag_data <$> filter (λ r : nat * Tag, (playlist, r.1) ∈ playlist_tags st)
                      (map_to_list (Tag_objects st)).

Definition summary (st : Store) (r : nat * Playlist) : PlaylistData :=
  mkPlaylistData r.1 (title r.2) (time_minutes r.2) (general_genre r.2)
    None None.

Definition detail (st : Store) (r : nat * Playlist) : PlaylistData :=
  mkPlaylistData r.1 (title r.2) (time_minutes r.2) (general_genre r.2)
    (Some (songs_of st r.1)) (Some (tags_of st r.1)).

End PlaylistSerializer.

(** Modelled from the spec: [PlaylistSerializer], the summary form used by
    the list action. *)
Definition PlaylistSerializer
    : Serializer Playlist PlaylistPayload PlaylistPayload PlaylistData :=
  mkSerializer PlaylistSerializer.run_validation PlaylistSerializer.summary
    PlaylistSerializer.create PlaylistSerializer.update.

(** Modelled from the spec: [PlaylistDetailSerializer], the detailed form
    with the nested songs and tags. *)
Definition PlaylistDetailSerializer
    : Serializer Playlist PlaylistPayload PlaylistPayload PlaylistData :=
  mkSerializer PlaylistSerializer.run_validation PlaylistSerializer.detail
    PlaylistSerializer.create PlaylistSerializer.update.

(** ** [playlist.views] *)

Module PlaylistViewSet.

Definition serializer_class := PlaylistDetailSerializer.

Definition authentication_classes := [TokenAuthentication].

Definition permission_classes := [IsAuthenticated].

Definition queryset (st : Store) : list (nat * Playlist) :=
  QuerySet.all (Playlist_objects st).

(** Retrieve playlists for authenticated user. *)
Definition get_queryset (request_user : User) (st : Store)
    : list (nat * Playlist) :=
  QuerySet.order_by_desc_id
    (QuerySet.filter_user playlist_user request_user (queryset st)).

(** Return the serializer class for request. *)
Definition get_serializer_class (action : Action) :=
  match action with
  | Alist => PlaylistSerializer
  | _ => serializer_class
  end.

(** Create a new playlist. *)
Definition perform_create
    (serializer : Serializer Playlist PlaylistPayload PlaylistPayload PlaylistData)
    (request_user : User) (validated_data : PlaylistPayload) (st : Store)
    : option ((nat * Playlist) * Store) :=
  save_new serializer (with_user request_user) request_user validated_data st.

Definition self
    : GenericAPIView Playlist PlaylistPayload PlaylistPayload PlaylistData :=
  mkGenericAPIView get_queryset get_serializer_class perform_create
    save_instance Playlist_delete.

Definition cls : ViewSet PlaylistPayload PlaylistData :=
  viewsets.ModelViewSet self.

Definition view :=
  viewsets.as_view authentication_classes permission_classes cls.

End PlaylistViewSet.

(** Base viewset of playlist attrs *)
Module BasePlaylistAttrViewSet.

Definition authentication_classes := [TokenAuthentication].

Definition permission_classes := [IsAuthenticated].

Section base.
Context {A R : Type}.
Variable name : A → string.
Variable user : A → User.
Variable queryset : Store → list (nat * A).
Variable serializer_class
  : Serializer A (gmap string string) (list (string * string)) R.
Variable delete : nat * A → Store → Store.

(** Filter queryset to authenticated user. *)
Definition get_queryset (request_user : User) (st : Store)
    : list (nat * A) :=
  QuerySet.order_by_desc_name name
    (QuerySet.filter_user user request_user (queryset st)).

(** The class defines [get_queryset] only; the serializer class is that of
    the subclass, and the [perform_] hooks are those of the mixins. *)
Definition self
    : GenericAPIView A (gmap string string) (list (string * string)) R :=
  mkGenericAPIView get_queryset (λ _, serializer_class)
    (λ serializer, save_new serializer id) save_instance delete.

Definition cls : ViewSet (gmap string string) R :=
  viewsets.inherit
    [mixins.DestroyModelMixin self; mixins.UpdateModelMixin self;
     mixins.ListModelMixin self; viewsets.GenericViewSet].

End base.
End BasePlaylistAttrViewSet.

(** Manage tags in the database. *)
Module TagViewSet.

Definition serializer_class := TagSerializer.

Definition queryset (st : Store) : list (nat * Tag) :=
  QuerySet.all (Tag_objects st).

Definition cls : ViewSet (gmap string string) TagData :=
  BasePlaylistAttrViewSet.cls tag_name tag_user queryset serializer_class
    Tag_delete.

Definition get_queryset :=
  BasePlaylistAttrViewSet.get_queryset tag_name tag_user queryset.

Definition view :=
  viewsets.as_view BasePlaylistAttrViewSet.authentication_classes
    BasePlaylistAttrViewSet.permission_classes cls.

End TagViewSet.

(** Manage songs in the database. *)
Module SongViewSet.

Definition serializer_class := SongSerializer.

Definition queryset (st : Store) : list (nat * Song) :=
  QuerySet.all (Song_objects st).

Definition cls : ViewSet (gmap string string) SongData :=
  BasePlaylistAttrViewSet.cls song_name song_user queryset serializer_class
    Song_delete.

Definition get_queryset :=
  BasePlaylistAttrViewSet.get_queryset song_name song_user queryset.

Definition view :=
  viewsets.as_view BasePlaylistAttrViewSet.authentication_classes
    BasePlaylistAttrViewSet.permission_classes cls.

End SongViewSet.

(** ** Notions used in the statements *)

(** The user that token authentication recognises in a request; [None]
    when the request has no [Authorization] header or a key that is not in
    the token table. *)
Definition authenticated_user {D} (st : Store) (req : Request D)
    : option User :=
  user_of (authenticate TokenAuthentication st (HTTP_AUTHORIZATION req)).

(** The row with key [pk] of the table [t], when [u] owns it: what a lookup
    in a query set filtered to [u] finds. *)
Definition scoped {A} (user : A → User) (u : User) (t : gmap nat A) (pk : nat)
    : option (nat * A) :=
  match t !! pk with
  | Some a => if decide (user a = u) then Some (pk, a) else None
  | None => None
  end.

(** The rows of the three tables that [u] does not own are in [st'] as they
    are in [st]. *)
Definition others_untouched (u : User) (st st' : Store) : Prop :=
  (∀ pk s, Song_objects st !! pk = Some s → song_user s ≠ u →
     Song_objects st' !! pk = Some s)
  ∧ (∀ pk t, Tag_objects st !! pk = Some t → tag_user t ≠ u →
       Tag_objects st' !! pk = Some t)
  ∧ (∀ pk p, Playlist_objects st !! pk = Some p → playlist_user p ≠ u →
       Playlist_objects st' !! pk = Some p).

(** The methods that update or delete. *)
Definition is_mutation (m : Method) : bool :=
  match m with
  | PUT | PATCH | DELETE => true
  | GET | POST => false
  end.

(** ** Stores and requests of the tests *)

(** The store of [test_songs_limited_to_user], with a tag and a playlist
    for each of the two users, and a token for each. *)
Definition db_two_users : Store :=
  mkStore
    {[ 1 := mkSong "Drain you" "Nirvana" 2;
       2 := mkSong "Love Buzz" "Nirvana" 1 ]}
    {[ 1 := mkTag "rock" 1; 2 := mkTag "grunge" 2 ]}
    {[ 1 := mkPlaylist "Bleach" 42 "Grunge" 1;
       2 := mkPlaylist "Nevermind" 49 "Grunge" 2 ]}
    {[ (1, 2); (2, 1) ]}
    {[ (1, 1); (2, 2) ]}
    {[ "key-1" := 1; "key-2" := 2 ]}.

(** The store of [test_filter_songs_assigned_to_playlists]. *)
Definition db_assigned : Store :=
  mkStore
    {[ 1 := mkSong "Back in Black" "" 1; 2 := mkSong "TNT" "" 1 ]}
    ∅
    {[ 1 := mkPlaylist "ACDC pack" 6 "Rock'n'Roll" 1 ]}
    {[ (1, 1) ]}
    ∅
    {[ "key-1" := 1 ]}.

(** The store of [test_filtered_songs_unique]. *)
Definition db_unique : Store :=
  mkStore
    {[ 1 := mkSong "Sunday" "" 1; 2 := mkSong "April" "" 1 ]}
    ∅
    {[ 1 := mkPlaylist "Days' songs" 4 "Different" 1;
       2 := mkPlaylist "Funny songs" 20 "Different" 1 ]}
    {[ (1, 1); (2, 1) ]}
    ∅
    {[ "key-1" := 1 ]}.

(** [client.get(SONGS_URL, {"assigned_only": 1})] *)
Definition get_assigned_only : Request (gmap string string) :=
  mkRequest GET list_route (Some "key-1") {[ "assigned_only" := "1" ]} ∅.

Definition no_payload : PlaylistPayload :=
  mkPlaylistPayload None None None None None None.

(** Requests on [db_two_users]: without credentials, with a key that is
    not in the token table, and of the first user. *)
Definition anonymous_get : Request (gmap string string) :=
  mkRequest GET list_route None ∅ ∅.

Definition bad_key_get : Request PlaylistPayload :=
  mkRequest GET list_route (Some "no-such-key") ∅ no_payload.

Definition user1_get : Request (gmap string string) :=
  mkRequest GET list_route (Some "key-1") ∅ ∅.

Definition user1_get_playlists : Request PlaylistPayload :=
  mkRequest GET list_route (Some "key-1") ∅ no_payload.

(** The first user aims at song 1 and at playlist 2, which the second user
    owns. *)
Definition user1_delete_1 : Request (gmap string string) :=
  mkRequest DELETE (detail_route 1) (Some "key-1") ∅ ∅.

Definition user1_put_playlist_2 : Request PlaylistPayload :=
  mkRequest PUT (detail_route 2) (Some "key-1") ∅
    (mkPlaylistPayload (Some "Mine now") (Some 1%Z) (Some "Pop") None None
       (Some 1)).

(** [client.patch(url, {"name": "CoolName"})] of [test_update_song], on
    song 2, which the first user owns. *)
Definition user1_patch_2 : Request (gmap string string) :=
  mkRequest PATCH (detail_route 2) (Some "key-1") ∅ {[ "name" := "CoolName" ]}.

(** The first user creates a playlist and names the second user as its
    owner. *)
Definition user1_post_playlist : Request PlaylistPayload :=
  mkRequest POST list_route (Some "key-1") ∅
    (mkPlaylistPayload (Some "In Utero") (Some 41%Z) (Some "Grunge")
       (Some [("Dumb", "Nirvana")]) (Some ["rock"]) (Some 2)).

(** The first user posts a song, and gets song 2, which is theirs. *)
Definition user1_post_song : Request (gmap string string) :=
  mkRequest POST list_route (Some "key-1") ∅
    {[ "name" := "Polly"; "artist" := "Nirvana" ]}.

Definition user1_get_song_2 : Request (gmap string string) :=
  mkRequest GET (detail_route 2) (Some "key-1") ∅ ∅.

(** A song is assigned when some playlist holds it. *)
Definition assigned (st : Store) (song : nat) : Prop :=
  ∃ playlist, (playlist, song) ∈ playlist_songs st.

(** ** More stores and requests *)

(** [db_two_users] after the second user has replaced their song, dropped
    their tag and replaced their playlist; the rows of the first user are
    the same. *)
Definition db_two_users_later : Store :=
  mkStore
    {[ 2 := mkSong "Love Buzz" "Nirvana" 1;
       3 := mkSong "Polly" "Nirvana" 2 ]}
    {[ 1 := mkTag "rock" 1 ]}
    {[ 1 := mkPlaylist "Bleach" 42 "Grunge" 1;
       3 := mkPlaylist "In Utero" 41 "Grunge" 2 ]}
    {[ (1, 2); (3, 3) ]}
    {[ (1, 1) ]}
    {[ "key-1" := 1; "key-2" := 2 ]}.

(** [db_two_users] with a third user, who has a token and owns nothing. *)
Definition db_newcomer : Store :=
  mkStore (Song_objects db_two_users) (Tag_objects db_two_users)
    (Playlist_objects db_two_users) (playlist_songs db_two_users)
    (playlist_tags db_two_users)
    {[ "key-1" := 1; "key-2" := 2; "key-3" := 3 ]}.

Definition user3_get : Request (gmap string string) :=
  mkRequest GET list_route (Some "key-3") ∅ ∅.

Definition user3_get_playlists : Request PlaylistPayload :=
  mkRequest GET list_route (Some "key-3") ∅ no_payload.

(** The first user deletes song 2 and playlist 1, which are theirs. *)
Definition user1_delete_2 : Request (gmap string string) :=
  mkRequest DELETE (detail_route 2) (Some "key-1") ∅ ∅.

Definition user1_delete_playlist_1 : Request PlaylistPayload :=
  mkRequest DELETE (detail_route 1) (Some "key-1") ∅ no_payload.

(** The first user aims at the id 7, which no row has. *)
Definition user1_delete_7 : Request (gmap string string) :=
  mkRequest DELETE (detail_route 7) (Some "key-1") ∅ ∅.

Definition user1_get_playlist_7 : Request PlaylistPayload :=
  mkRequest GET (detail_route 7) (Some "key-1") ∅ no_payload.

(** * Properties *)

(** ** Query sets *)

Section queryset_facts.
Context {A : Type}.
Implicit Types (qs : list (nat * A)) (r : nat * A).

#[global] Instance desc_id_total : Total (@QuerySet.desc_id A).
Proof. intros x y. unfold QuerySet.desc_id. lia. Qed.

#[global] Instance desc_id_trans : Transitive (@QuerySet.desc_id A).
Proof. intros x y z. unfold QuerySet.desc_id. lia. Qed.

#[global] Instance desc_name_total (name : A → string) :
  Total (QuerySet.desc_name name).
Proof.
  intros x y. unfold QuerySet.desc_name.
  destruct (total String.le (name x.2) (name y.2)); auto.
Qed.

#[global] Instance desc_name_trans (name : A → string) :
  Transitive (QuerySet.desc_name name).
Proof.
  intros x y z. unfold QuerySet.desc_name. intros Hxy Hyz. by etrans.
Qed.

Lemma elem_of_order_by_desc_id qs r :
  r ∈ QuerySet.order_by_desc_id qs ↔ r ∈ qs.
Proof. unfold QuerySet.order_by_desc_id. by rewrite merge_sort_Permutation. Qed.

Lemma elem_of_order_by_desc_name name qs r :
  r ∈ QuerySet.order_by_desc_name name qs ↔ r ∈ qs.
Proof.
  unfold QuerySet.order_by_desc_name. by rewrite merge_sort_Permutation.
Qed.

Lemma elem_of_filter_user (user : A → User) u qs r :
  r ∈ QuerySet.filter_user user u qs ↔ user r.2 = u ∧ r ∈ qs.
Proof. unfold QuerySet.filter_user. by rewrite list_elem_of_filter. Qed.

Lemma elem_of_all (t : gmap nat A) r :
  r ∈ QuerySet.all t ↔ t !! r.1 = Some r.2.
Proof. destruct r as [pk a]. apply elem_of_map_to_list. Qed.

Lemma NoDup_all (t : gmap nat A) : NoDup (QuerySet.all t).*1.
Proof. apply NoDup_fst_map_to_list. Qed.

Lemma NoDup_filter_user (user : A → User) u qs :
  NoDup qs.*1 → NoDup (QuerySet.filter_user user u qs).*1.
Proof.
  unfold QuerySet.filter_user. induction qs as [|r qs IH]; [done|].
  rewrite fmap_cons, NoDup_cons. intros [Hr Hqs].
  rewrite filter_cons. case_decide; [|by auto].
  rewrite fmap_cons, NoDup_cons. split; [|by auto].
  rewrite list_elem_of_fmap in Hr |- *. intros (r' & Hfst & Hin).
  apply Hr. exists r'. split; [done|].
  by apply list_elem_of_filter in Hin as [_ ?].
Qed.

Lemma NoDup_order_by_desc_id qs :
  NoDup qs.*1 → NoDup (QuerySet.order_by_desc_id qs).*1.
Proof.
  unfold QuerySet.order_by_desc_id. by rewrite merge_sort_Permutation.
Qed.

Lemma NoDup_order_by_desc_name name qs :
  NoDup qs.*1 → NoDup (QuerySet.order_by_desc_name name qs).*1.
Proof.
  unfold QuerySet.order_by_desc_name. by rewrite merge_sort_Permutation.
Qed.

Lemma sorted_order_by_desc_id qs :
  StronglySorted QuerySet.desc_id (QuerySet.order_by_desc_id qs).
Proof. apply StronglySorted_merge_sort; apply _. Qed.

Lemma sorted_order_by_desc_name name qs :
  StronglySorted (QuerySet.desc_name name) (QuerySet.order_by_desc_name name qs).
Proof. apply StronglySorted_merge_sort; apply _. Qed.

(** With distinct keys, descending order of the keys is strict. *)
Lemma strictly_sorted_desc_id qs :
  NoDup qs.*1 → StronglySorted QuerySet.desc_id qs →
  StronglySorted (λ r1 r2, r2.1 < r1.1) qs.
Proof.
  induction qs as [|r qs IH]; [constructor|].
  rewrite fmap_cons, NoDup_cons, StronglySorted_cons.
  intros [Hr Hnd] [Hall Hs]. constructor; [by auto|].
  rewrite Forall_forall in Hall |- *. intros r' Hin.
  specialize (Hall r' Hin). unfold QuerySet.desc_id in Hall.
  assert (r'.1 ≠ r.1); [|lia].
  intros Heq. apply Hr. rewrite <- Heq. by apply list_elem_of_fmap_2.
Qed.

Lemma get_Some pk qs r :
  QuerySet.get pk qs = Some r → r ∈ qs ∧ r.1 = pk.
Proof.
  unfold QuerySet.get. intros Hhd%head_Some_elem_of.
  apply list_elem_of_filter in Hhd as [? ?]. done.
Qed.

Lemma get_None pk qs :
  QuerySet.get pk qs = None ↔ ∀ r, r ∈ qs → r.1 ≠ pk.
Proof.
  unfold QuerySet.get. rewrite head_None. split.
  - intros Hnil r Hin Hpk.
    by eapply (filter_nil_not_elem_of (λ r, r.1 = pk)).
  - intros Hall. destruct (filter _ qs) as [|r l] eqn:Hf; [done|].
    assert (r ∈ filter (λ r, r.1 = pk) qs) as Hin by (rewrite Hf; left).
    apply list_elem_of_filter in Hin as [? ?]. by destruct (Hall r).
Qed.

Lemma NoDup_fst_unique qs pk a a' :
  NoDup qs.*1 → (pk, a) ∈ qs → (pk, a') ∈ qs → a = a'.
Proof.
  induction qs as [|r qs IH]; [by intros _ ?%elem_of_nil|].
  rewrite fmap_cons, NoDup_cons, !elem_of_cons. intros [Hr Hnd] [H1|H1] [H2|H2].
  - congruence.
  - subst r. destruct Hr. by apply (list_elem_of_fmap_2 fst) in H2.
  - subst r. destruct Hr. by apply (list_elem_of_fmap_2 fst) in H1.
  - by apply IH.
Qed.

Lemma get_elem_of pk a qs :
  NoDup qs.*1 → (pk, a) ∈ qs → QuerySet.get pk qs = Some (pk, a).
Proof.
  intros Hnd Hin. destruct (QuerySet.get pk qs) as [[pk' a']|] eqn:Hget.
  - apply get_Some in Hget as [Hin' Hpk]. simpl in Hpk. subst pk'.
    by rewrite (NoDup_fst_unique qs pk a a').
  - rewrite get_None in Hget. by destruct (Hget _ Hin).
Qed.

End queryset_facts.

(** ** Looking a row up in a query set scoped to a user *)

Lemma get_scoped {A} (user : A → User) u (t : gmap nat A) qs pk :
  (∀ r, r ∈ qs ↔ user r.2 = u ∧ r ∈ QuerySet.all t) →
  NoDup qs.*1 →
  QuerySet.get pk qs = scoped user u t pk.
Proof.
  intros Hqs Hnd. unfold scoped.
  destruct (t !! pk) as [a|] eqn:Hpk; [case_decide as Hu|].
  - apply get_elem_of; [done|]. apply Hqs. split; [done|].
    by apply elem_of_all.
  - apply get_None. intros [pk' a'] [Hu' Hin]%Hqs ?. simplify_eq/=.
    apply elem_of_all in Hin. simpl in Hin. congruence.
  - apply get_None. intros [pk' a'] [Hu' Hin]%Hqs ?. simplify_eq/=.
    apply elem_of_all in Hin. simpl in Hin. congruence.
Qed.

Lemma scoped_Some {A} (user : A → User) u (t : gmap nat A) pk r :
  scoped user u t pk = Some r ↔ r.1 = pk ∧ t !! pk = Some r.2 ∧ user r.2 = u.
Proof.
  unfold scoped. destruct r as [pk' a']. simpl.
  destruct (t !! pk) as [a|]; [case_decide|];
    (split; [intros ?; by simplify_eq | intros (? & ? & ?); by simplify_eq]).
Qed.

Lemma playlist_get_queryset_elem u st r :
  r ∈ PlaylistViewSet.get_queryset u st ↔
  playlist_user r.2 = u ∧ r ∈ QuerySet.all (Playlist_objects st).
Proof.
  unfold PlaylistViewSet.get_queryset, PlaylistViewSet.queryset.
  by rewrite elem_of_order_by_desc_id, elem_of_filter_user.
Qed.

Lemma playlist_get_queryset_NoDup u st :
  NoDup (PlaylistViewSet.get_queryset u st).*1.
Proof.
  apply NoDup_order_by_desc_id, NoDup_filter_user, NoDup_all.
Qed.

Lemma playlist_get_object u pk st :
  mixins.get_object PlaylistViewSet.self u pk st
  = scoped playlist_user u (Playlist_objects st) pk.
Proof.
  apply get_scoped.
  - apply playlist_get_queryset_elem.
  - apply playlist_get_queryset_NoDup.
Qed.

Section base_facts.
Context {A R : Type}.
Variable name : A → string.
Variable user : A → User.
Variable table : Store → gmap nat A.
Variable serializer_class
  : Serializer A (gmap string string) (list (string * string)) R.
Variable delete : nat * A → Store → Store.

Lemma base_get_queryset_elem u st r :
  r ∈ BasePlaylistAttrViewSet.get_queryset name user
        (λ st, QuerySet.all (table st)) u st ↔
  user r.2 = u ∧ r ∈ QuerySet.all (table st).
Proof.
  unfold BasePlaylistAttrViewSet.get_queryset.
  by rewrite elem_of_order_by_desc_name, elem_of_filter_user.
Qed.

Lemma base_get_queryset_NoDup u st :
  NoDup (BasePlaylistAttrViewSet.get_queryset name user
        (λ st, QuerySet.all (table st)) u st).*1.
Proof.
  apply NoDup_order_by_desc_name, NoDup_filter_user, NoDup_all.
Qed.

Lemma base_get_object u pk st :
  mixins.get_object
    (BasePlaylistAttrViewSet.self name user (λ st, QuerySet.all (table st))
       serializer_class delete)
    u pk st
  = scoped user u (table st) pk.
Proof.
  apply get_scoped.
  - apply base_get_queryset_elem.
  - apply base_get_queryset_NoDup.
Qed.

End base_facts.

(** ** Dispatch *)

Section dispatch_facts.
Context {D R : Type}.
Implicit Types (cls : ViewSet D R) (req : Request D).

Lemma as_view_authenticated cls st req u :
  authenticated_user st req = Some u →
  viewsets.as_view [TokenAuthentication] [IsAuthenticated] cls st req =
  match router (method req) (route req) with
  | None => (viewsets.method_not_allowed, st)
  | Some a =>
      match cls a with
      | None => (viewsets.method_not_allowed, st)
      | Some handler => handler u req st
      end
  end.
Proof.
  unfold authenticated_user, viewsets.as_view, initial. simpl.
  destruct (match HTTP_AUTHORIZATION req with Some _ => _ | None => _ end)
    as [|u'|]; intros ?; simplify_eq/=.
  destruct (router _ _) as [a|]; [|done]. by destruct (cls a).
Qed.

Lemma as_view_denied cls st req :
  authenticated_user st req = None →
  ∃ c, viewsets.as_view [TokenAuthentication] [IsAuthenticated] cls st req
       = (mkResponse HTTP_401_UNAUTHORIZED c, st)
       ∧ resources c = [].
Proof.
  unfold authenticated_user, viewsets.as_view, initial. simpl.
  destruct (match HTTP_AUTHORIZATION req with Some _ => _ | None => _ end)
    as [|u'|]; intros ?; simplify_eq/=; eauto.
Qed.

End dispatch_facts.

(** The views, with the classes that authenticate and permit in sight. *)
Ltac unfold_view :=
  cbv delta [PlaylistViewSet.view SongViewSet.view TagViewSet.view
             PlaylistViewSet.authentication_classes
             PlaylistViewSet.permission_classes
             BasePlaylistAttrViewSet.authentication_classes
             BasePlaylistAttrViewSet.permission_classes].

(** ** What the list and detail handlers answer *)

Lemma playlist_list st (req : Request PlaylistPayload) u :
  authenticated_user st req = Some u →
  method req = GET → route req = list_route →
  PlaylistViewSet.view st req =
  (mkResponse HTTP_200_OK
     (Array (PlaylistSerializer.summary st <$> PlaylistViewSet.get_queryset u st)),
   st).
Proof.
  intros Hauth Hm Hr. unfold_view.
  rewrite (as_view_authenticated _ _ _ u Hauth), Hm, Hr. reflexivity.
Qed.

Lemma song_list st (req : Request (gmap string string)) u :
  authenticated_user st req = Some u →
  method req = GET → route req = list_route →
  SongViewSet.view st req =
  (mkResponse HTTP_200_OK (Array (Song_data <$> SongViewSet.get_queryset u st)),
   st).
Proof.
  intros Hauth Hm Hr. unfold_view.
  rewrite (as_view_authenticated _ _ _ u Hauth), Hm, Hr. reflexivity.
Qed.

Lemma tag_list st (req : Request (gmap string string)) u :
  authenticated_user st req = Some u →
  method req = GET → route req = list_route →
  TagViewSet.view st req =
  (mkResponse HTTP_200_OK (Array (Tag_data <$> TagViewSet.get_queryset u st)),
   st).
Proof.
  intros Hauth Hm Hr. unfold_view.
  rewrite (as_view_authenticated _ _ _ u Hauth), Hm, Hr. reflexivity.
Qed.

Lemma song_get_queryset_elem u st r :
  r ∈ SongViewSet.get_queryset u st ↔
  song_user r.2 = u ∧ Song_objects st !! r.1 = Some r.2.
Proof.
  unfold SongViewSet.get_queryset, SongViewSet.queryset.
  by rewrite (base_get_queryset_elem song_name song_user Song_objects),
    elem_of_all.
Qed.

Lemma tag_get_queryset_elem u st r :
  r ∈ TagViewSet.get_queryset u st ↔
  tag_user r.2 = u ∧ Tag_objects st !! r.1 = Some r.2.
Proof.
  unfold TagViewSet.get_queryset, TagViewSet.queryset.
  by rewrite (base_get_queryset_elem tag_name tag_user Tag_objects),
    elem_of_all.
Qed.

Lemma playlist_get_queryset_lookup u st r :
  r ∈ PlaylistViewSet.get_queryset u st ↔
  playlist_user r.2 = u ∧ Playlist_objects st !! r.1 = Some r.2.
Proof. by rewrite playlist_get_queryset_elem, elem_of_all. Qed.

(** C8: a request without a valid credential (no token, or a key that is
    not in the token table) to the playlist, song or tag endpoints is
    answered 401, with no resource in the response and the store as it
    was. *)
Theorem unauthenticated_request_is_401 st
    (req : Request (gmap string string)) (preq : Request PlaylistPayload) :
  authenticated_user st req = None →
  authenticated_user st preq = None →
  (status_code (PlaylistViewSet.view st preq).1 = 401
   ∧ resources (content (PlaylistViewSet.view st preq).1) = []
   ∧ (PlaylistViewSet.view st preq).2 = st)
  ∧ (status_code (SongViewSet.view st req).1 = 401
     ∧ resources (content (SongViewSet.view st req).1) = []
     ∧ (SongViewSet.view st req).2 = st)
  ∧ (status_code (TagViewSet.view st req).1 = 401
     ∧ resources (content (TagViewSet.view st req).1) = []
     ∧ (TagViewSet.view st req).2 = st).
Proof.
  intros Hreq Hpreq.
  destruct (as_view_denied PlaylistViewSet.cls st preq Hpreq) as (c1 & E1 & ?).
  destruct (as_view_denied SongViewSet.cls st req Hreq) as (c2 & E2 & ?).
  destruct (as_view_denied TagViewSet.cls st req Hreq) as (c3 & E3 & ?).
  unfold_view.
  rewrite E1, E2, E3. simpl. done.
Qed.

(** C3: with two distinct users, nothing that the second owns (song, tag or
    playlist) is among the entries of a list response to the first,
    whatever the store holds. *)
Theorem list_responses_are_isolated st u1 u2
    (req : Request (gmap string string)) (preq : Request PlaylistPayload) :
  u1 ≠ u2 →
  authenticated_user st req = Some u1 →
  authenticated_user st preq = Some u1 →
  method req = GET → route req = list_route →
  method preq = GET → route preq = list_route →
  (∀ pk s, Song_objects st !! pk = Some s → song_user s = u2 →
     pk ∉ sd_id <$> resources (content (SongViewSet.view st req).1))
  ∧ (∀ pk t, Tag_objects st !! pk = Some t → tag_user t = u2 →
       pk ∉ td_id <$> resources (content (TagViewSet.view st req).1))
  ∧ (∀ pk p, Playlist_objects st !! pk = Some p → playlist_user p = u2 →
       pk ∉ pd_id <$> resources (content (PlaylistViewSet.view st preq).1)).
Proof.
  intros Hne Hauth Hpauth Hm Hr Hpm Hpr.
  rewrite (song_list st req u1), (tag_list st req u1),
    (playlist_list st preq u1) by done. simpl.
  split_and!.
  - intros pk s Hpk Hu (d & -> & (r & -> & Hin)%list_elem_of_fmap)%list_elem_of_fmap.
    apply song_get_queryset_elem in Hin as [Hu1 Hr1]. simpl in Hpk.
    congruence.
  - intros pk t Hpk Hu (d & -> & (r & -> & Hin)%list_elem_of_fmap)%list_elem_of_fmap.
    apply tag_get_queryset_elem in Hin as [Hu1 Hr1]. simpl in Hpk.
    congruence.
  - intros pk p Hpk Hu (d & -> & (r & -> & Hin)%list_elem_of_fmap)%list_elem_of_fmap.
    apply playlist_get_queryset_lookup in Hin as [Hu1 Hr1]. simpl in Hpk.
    congruence.
Qed.

(** C5: an authenticated user's playlist list holds exactly the playlists
    the caller owns, in strictly descending order of id; retrieving a
    playlist answers it when the caller owns it and 404 otherwise. *)
Theorem playlists_of_caller_by_descending_id st u
    (req : Request PlaylistPayload) :
  authenticated_user st req = Some u →
  method req = GET →
  match route req with
  | list_route =>
      ∃ l, PlaylistViewSet.view st req = (mkResponse 200 (Array l), st)
        ∧ StronglySorted (λ d1 d2, pd_id d2 < pd_id d1) l
        ∧ ∀ d, d ∈ l ↔
            ∃ p, Playlist_objects st !! pd_id d = Some p
                 ∧ playlist_user p = u
                 ∧ d = PlaylistSerializer.summary st (pd_id d, p)
  | detail_route pk =>
      (∀ p, Playlist_objects st !! pk = Some p → playlist_user p = u →
         PlaylistViewSet.view st req =
         (mkResponse 200 (Object (PlaylistSerializer.detail st (pk, p))), st))
      ∧ (¬ (∃ p, Playlist_objects st !! pk = Some p ∧ playlist_user p = u) →
         PlaylistViewSet.view st req =
         (mkResponse 404 (Detail "Not found."), st))
  end.
Proof.
  intros Hauth Hm. destruct (route req) as [|pk] eqn:Hr.
  - eexists. split; [by apply playlist_list|]. split.
    + apply (StronglySorted_fmap _ (λ r1 r2 : nat * Playlist, r2.1 < r1.1));
        [done|].
      apply strictly_sorted_desc_id; [apply playlist_get_queryset_NoDup|].
      apply sorted_order_by_desc_id.
    + intros d. rewrite list_elem_of_fmap. split.
      * intros ([pk p] & -> & [Hu Hp]%playlist_get_queryset_lookup).
        by exists p.
      * intros (p & Hp & Hu & Hd). exists (pd_id d, p). split; [done|].
        by apply playlist_get_queryset_lookup.
  - unfold_view.
    rewrite (as_view_authenticated _ _ _ u Hauth), Hm, Hr.
    cbn [router]. change (PlaylistViewSet.cls (Aretrieve pk))
      with (Some (mixins.retrieve PlaylistViewSet.self pk)).
    unfold mixins.retrieve. rewrite playlist_get_object. unfold scoped.
    split.
    + intros p Hp Hu. rewrite Hp, decide_True by done. reflexivity.
    + intros Hno. destruct (Playlist_objects st !! pk) as [p|] eqn:Hp;
        [|reflexivity].
      rewrite decide_False; [reflexivity|]. intros Hu. apply Hno. eauto.
Qed.

(** C6: an authenticated user's song list, and tag list, hold exactly the
    caller's rows, each once, in descending order of name. *)
Theorem songs_and_tags_by_descending_name st u
    (req : Request (gmap string string)) :
  authenticated_user st req = Some u →
  method req = GET → route req = list_route →
  (∃ l, SongViewSet.view st req = (mkResponse 200 (Array l), st)
     ∧ StronglySorted (λ d1 d2, String.le (sd_name d2) (sd_name d1)) l
     ∧ NoDup (sd_id <$> l)
     ∧ ∀ d, d ∈ l ↔
         ∃ s, Song_objects st !! sd_id d = Some s ∧ song_user s = u
              ∧ d = Song_data (sd_id d, s))
  ∧ (∃ l, TagViewSet.view st req = (mkResponse 200 (Array l), st)
       ∧ StronglySorted (λ d1 d2, String.le (td_name d2) (td_name d1)) l
       ∧ NoDup (td_id <$> l)
       ∧ ∀ d, d ∈ l ↔
           ∃ t, Tag_objects st !! td_id d = Some t ∧ tag_user t = u
                ∧ d = Tag_data (td_id d, t)).
Proof.
  intros Hauth Hm Hr. split.
  - eexists. split; [by apply song_list|]. split_and!.
    + apply (StronglySorted_fmap _ (QuerySet.desc_name song_name)); [done|].
      apply sorted_order_by_desc_name.
    + rewrite <- list_fmap_compose.
      apply (base_get_queryset_NoDup song_name song_user Song_objects).
    + intros d. rewrite list_elem_of_fmap. split.
      * intros ([pk s] & -> & [Hu Hs]%song_get_queryset_elem). by exists s.
      * intros (s & Hs & Hu & Hd). exists (sd_id d, s). split; [done|].
        by apply song_get_queryset_elem.
  - eexists. split; [by apply tag_list|]. split_and!.
    + apply (StronglySorted_fmap _ (QuerySet.desc_name tag_name)); [done|].
      apply sorted_order_by_desc_name.
    + rewrite <- list_fmap_compose.
      apply (base_get_queryset_NoDup tag_name tag_user Tag_objects).
    + intros d. rewrite list_elem_of_fmap. split.
      * intros ([pk t] & -> & [Hu Ht]%tag_get_queryset_elem). by exists t.
      * intros (t & Ht & Hu & Hd). exists (td_id d, t). split; [done|].
        by apply tag_get_queryset_elem.
Qed.

(** ** Rows of other users are out of reach *)

Lemma next_pk_fresh {A} (t : gmap nat A) : t !! next_pk t = None.
Proof.
  destruct (t !! next_pk t) as [a|] eqn:Hpk; [|done]. exfalso.
  apply elem_of_map_to_list in Hpk.
  apply (list_elem_of_fmap_2 fst) in Hpk. simpl in Hpk.
  apply max_list_elem_of_le in Hpk. unfold next_pk in Hpk. lia.
Qed.

Section frame.
Variable u : User.

#[global] Instance others_untouched_refl : Reflexive (others_untouched u).
Proof. intros st. unfold others_untouched. auto. Qed.

#[global] Instance others_untouched_trans : Transitive (others_untouched u).
Proof.
  intros st1 st2 st3 (Hs12 & Ht12 & Hp12) (Hs23 & Ht23 & Hp23).
  unfold others_untouched. split_and!; eauto.
Qed.

Lemma Song_save_frame pk s' st :
  (∀ s, Song_objects st !! pk = Some s → song_user s = u) →
  others_untouched u st (Song_save (pk, s') st).
Proof.
  intros Hown. unfold others_untouched, Song_save. simpl.
  split_and!; [|done..]. intros pk0 s Hs Hu.
  rewrite lookup_insert_ne; [done|]. intros <-. by apply Hu, Hown.
Qed.

Lemma Tag_save_frame pk t' st :
  (∀ t, Tag_objects st !! pk = Some t → tag_user t = u) →
  others_untouched u st (Tag_save (pk, t') st).
Proof.
  intros Hown. unfold others_untouched, Tag_save. simpl.
  split_and!; [done| |done]. intros pk0 t Ht Hu.
  rewrite lookup_insert_ne; [done|]. intros <-. by apply Hu, Hown.
Qed.

Lemma Playlist_save_frame pk p' st :
  (∀ p, Playlist_objects st !! pk = Some p → playlist_user p = u) →
  others_untouched u st (Playlist_save (pk, p') st).
Proof.
  intros Hown. unfold others_untouched, Playlist_save. simpl.
  split_and!; [done..|]. intros pk0 p Hp Hu.
  rewrite lookup_insert_ne; [done|]. intros <-. by apply Hu, Hown.
Qed.

Lemma Song_delete_frame pk s st :
  Song_objects st !! pk = Some s → song_user s = u →
  others_untouched u st (Song_delete (pk, s) st).
Proof.
  intros Hpk Hown. unfold others_untouched, Song_delete. simpl.
  split_and!; [|done..]. intros pk0 s0 Hs Hu.
  rewrite lookup_delete_ne; [done|]. intros <-. congruence.
Qed.

Lemma Tag_delete_frame pk t st :
  Tag_objects st !! pk = Some t → tag_user t = u →
  others_untouched u st (Tag_delete (pk, t) st).
Proof.
  intros Hpk Hown. unfold others_untouched, Tag_delete. simpl.
  split_and!; [done| |done]. intros pk0 t0 Ht Hu.
  rewrite lookup_delete_ne; [done|]. intros <-. congruence.
Qed.

Lemma Playlist_delete_frame pk p st :
  Playlist_objects st !! pk = Some p → playlist_user p = u →
  others_untouched u st (Playlist_delete (pk, p) st).
Proof.
  intros Hpk Hown. unfold others_untouched, Playlist_delete. simpl.
  split_and!; [done..|]. intros pk0 p0 Hp Hu.
  rewrite lookup_delete_ne; [done|]. intros <-. congruence.
Qed.

Lemma set_playlist_songs_frame r st :
  others_untouched u st (set_playlist_songs r st).
Proof. unfold others_untouched. simpl. auto. Qed.

Lemma set_playlist_tags_frame r st :
  others_untouched u st (set_playlist_tags r st).
Proof. unfold others_untouched. simpl. auto. Qed.

Lemma Song_get_or_create_frame na st :
  others_untouched u st (Song_get_or_create u na st).2.
Proof.
  unfold Song_get_or_create. destruct (filter _ _); simpl; [|done].
  apply Song_save_frame. intros s. by rewrite next_pk_fresh.
Qed.

Lemma Tag_get_or_create_frame n st :
  others_untouched u st (Tag_get_or_create u n st).2.
Proof.
  unfold Tag_get_or_create. destruct (filter _ _); simpl; [|done].
  apply Tag_save_frame. intros t. by rewrite next_pk_fresh.
Qed.

Lemma add_songs_frame playlist songs st :
  others_untouched u st (add_songs u playlist songs st).
Proof.
  unfold add_songs. revert st. induction songs as [|na songs IH]; intros st.
  - done.
  - simpl. etrans; [|apply IH].
    pose proof (Song_get_or_create_frame na st) as Hf.
    destruct (Song_get_or_create u na st) as [song st1]. simpl in Hf.
    etrans; [exact Hf|]. apply set_playlist_songs_frame.
Qed.

Lemma add_tags_frame playlist tags st :
  others_untouched u st (add_tags u playlist tags st).
Proof.
  unfold add_tags. revert st. induction tags as [|n tags IH]; intros st.
  - done.
  - simpl. etrans; [|apply IH].
    pose proof (Tag_get_or_create_frame n st) as Hf.
    destruct (Tag_get_or_create u n st) as [tag st1]. simpl in Hf.
    etrans; [exact Hf|]. apply set_playlist_tags_frame.
Qed.

End frame.

Lemma add_songs_Playlist_objects u playlist songs st :
  Playlist_objects (add_songs u playlist songs st) = Playlist_objects st.
Proof.
  unfold add_songs. revert st. induction songs as [|na songs IH]; intros st;
    [done|].
  simpl. rewrite IH. unfold Song_get_or_create.
  by destruct (filter _ _).
Qed.

Lemma add_tags_Playlist_objects u playlist tags st :
  Playlist_objects (add_tags u playlist tags st) = Playlist_objects st.
Proof.
  unfold add_tags. revert st. induction tags as [|n tags IH]; intros st;
    [done|].
  simpl. rewrite IH. unfold Tag_get_or_create.
  by destruct (filter _ _).
Qed.

Lemma PlaylistSerializer_update_Playlist_objects u r vd st :
  Playlist_objects (PlaylistSerializer.update u r vd st).2
  = <[r.1 := Playlist_setattrs r.2 vd]> (Playlist_objects st).
Proof.
  unfold PlaylistSerializer.update. simpl. f_equal.
  destruct (p_tags vd), (p_songs vd);
    rewrite ?add_tags_Playlist_objects; simpl;
    rewrite ?add_songs_Playlist_objects; done.
Qed.

Lemma PlaylistSerializer_update_frame u pk p vd st :
  Playlist_objects st !! pk = Some p → playlist_user p = u →
  others_untouched u st (PlaylistSerializer.update u (pk, p) vd st).2.
Proof.
  intros Hpk Hown. unfold PlaylistSerializer.update. simpl.
  set (st1 := match p_songs vd with Some _ => _ | None => _ end).
  set (st2 := match p_tags vd with Some _ => _ | None => _ end).
  assert (others_untouched u st st1 ∧ Playlist_objects st1 = Playlist_objects st)
    as [Hf1 Hp1].
  { subst st1. destruct (p_songs vd) as [songs|]; [|done]. split.
    - etrans; [apply (set_playlist_songs_frame u)|apply add_songs_frame].
    - by rewrite add_songs_Playlist_objects. }
  assert (others_untouched u st1 st2 ∧ Playlist_objects st2 = Playlist_objects st1)
    as [Hf2 Hp2].
  { subst st2. destruct (p_tags vd) as [tags|]; [|done]. split.
    - etrans; [apply (set_playlist_tags_frame u)|apply add_tags_frame].
    - by rewrite add_tags_Playlist_objects. }
  etrans; [exact Hf1|]. etrans; [exact Hf2|].
  apply Playlist_save_frame. intros p0. rewrite Hp2, Hp1, Hpk. congruence.
Qed.

Lemma PlaylistSerializer_create_frame u vd st r st' :
  PlaylistSerializer.create u vd st = Some (r, st') →
  others_untouched u st st'.
Proof.
  unfold PlaylistSerializer.create, Playlist_create.
  destruct (p_title vd), (p_time_minutes vd), (p_general_genre vd),
    (p_user vd); intros ?; simplify_eq/=.
  etrans; [|apply add_tags_frame]. etrans; [|apply add_songs_frame].
  apply Playlist_save_frame. intros p. by rewrite next_pk_fresh.
Qed.

Lemma song_get_object u pk st :
  mixins.get_object
    (BasePlaylistAttrViewSet.self song_name song_user SongViewSet.queryset
       SongViewSet.serializer_class Song_delete) u pk st
  = scoped song_user u (Song_objects st) pk.
Proof. apply (base_get_object song_name song_user Song_objects). Qed.

Lemma tag_get_object u pk st :
  mixins.get_object
    (BasePlaylistAttrViewSet.self tag_name tag_user TagViewSet.queryset
       TagViewSet.serializer_class Tag_delete) u pk st
  = scoped tag_user u (Tag_objects st) pk.
Proof. apply (base_get_object tag_name tag_user Tag_objects). Qed.

(** The actions of the three classes. *)
Lemma SongViewSet_actions a :
  SongViewSet.cls a =
  let self := BasePlaylistAttrViewSet.self song_name song_user
                SongViewSet.queryset SongViewSet.serializer_class Song_delete in
  match a with
  | Alist => Some (mixins.list self)
  | Aupdate pk => Some (mixins.update self false (Aupdate pk) pk)
  | Apartial_update pk => Some (mixins.partial_update self pk)
  | Adestroy pk => Some (mixins.destroy self pk)
  | Acreate | Aretrieve _ => None
  end.
Proof. by destruct a. Qed.

Lemma TagViewSet_actions a :
  TagViewSet.cls a =
  let self := BasePlaylistAttrViewSet.self tag_name tag_user
                TagViewSet.queryset TagViewSet.serializer_class Tag_delete in
  match a with
  | Alist => Some (mixins.list self)
  | Aupdate pk => Some (mixins.update self false (Aupdate pk) pk)
  | Apartial_update pk => Some (mixins.partial_update self pk)
  | Adestroy pk => Some (mixins.destroy self pk)
  | Acreate | Aretrieve _ => None
  end.
Proof. by destruct a. Qed.

Lemma PlaylistViewSet_actions a :
  PlaylistViewSet.cls a =
  let self := PlaylistViewSet.self in
  match a with
  | Alist => Some (mixins.list self)
  | Acreate => Some (mixins.create self)
  | Aretrieve pk => Some (mixins.retrieve self pk)
  | Aupdate pk => Some (mixins.update self false (Aupdate pk) pk)
  | Apartial_update pk => Some (mixins.partial_update self pk)
  | Adestroy pk => Some (mixins.destroy self pk)
  end.
Proof. by destruct a. Qed.

Lemma song_view_frame st (req : Request (gmap string string)) u :
  authenticated_user st req = Some u →
  others_untouched u st (SongViewSet.view st req).2.
Proof.
  intros Hauth. unfold_view.
  rewrite (as_view_authenticated _ _ _ u Hauth).
  destruct (router _ _) as [a|]; [|done].
  rewrite SongViewSet_actions. cbv zeta.
  destruct a as [| |pk|pk|pk|pk]; try done;
    unfold mixins.partial_update, mixins.update, mixins.destroy;
    rewrite song_get_object;
    (destruct (scoped _ _ _ _) as [[pk' s]|] eqn:Hs; [|done]);
    apply scoped_Some in Hs as (Hpk & Hs & Hu); simpl in Hpk, Hs, Hu;
    subst pk'.
  - destruct (run_validation _ _ _) as [errors|vd]; [done|]. simpl.
    apply Song_save_frame. intros s0. rewrite Hs. congruence.
  - destruct (run_validation _ _ _) as [errors|vd]; [done|]. simpl.
    apply Song_save_frame. intros s0. rewrite Hs. congruence.
  - simpl. by apply Song_delete_frame.
Qed.

Lemma tag_view_frame st (req : Request (gmap string string)) u :
  authenticated_user st req = Some u →
  others_untouched u st (TagViewSet.view st req).2.
Proof.
  intros Hauth. unfold_view.
  rewrite (as_view_authenticated _ _ _ u Hauth).
  destruct (router _ _) as [a|]; [|done].
  rewrite TagViewSet_actions. cbv zeta.
  destruct a as [| |pk|pk|pk|pk]; try done;
    unfold mixins.partial_update, mixins.update, mixins.destroy;
    rewrite tag_get_object;
    (destruct (scoped _ _ _ _) as [[pk' t]|] eqn:Ht; [|done]);
    apply scoped_Some in Ht as (Hpk & Ht & Hu); simpl in Hpk, Ht, Hu;
    subst pk'.
  - destruct (run_validation _ _ _) as [errors|vd]; [done|]. simpl.
    apply Tag_save_frame. intros t0. rewrite Ht. congruence.
  - destruct (run_validation _ _ _) as [errors|vd]; [done|]. simpl.
    apply Tag_save_frame. intros t0. rewrite Ht. congruence.
  - simpl. by apply Tag_delete_frame.
Qed.

Lemma playlist_view_frame st (req : Request PlaylistPayload) u :
  authenticated_user st req = Some u →
  others_untouched u st (PlaylistViewSet.view st req).2.
Proof.
  intros Hauth. unfold_view.
  rewrite (as_view_authenticated _ _ _ u Hauth).
  destruct (router _ _) as [a|]; [|done].
  rewrite PlaylistViewSet_actions. cbv zeta.
  destruct a as [| |pk|pk|pk|pk]; [done| |..].
  - unfold mixins.create.
    destruct (run_validation _ _ _) as [errors|vd]; [done|].
    destruct (perform_create _ _ _ _ _) as [[r st']|] eqn:Hc; [|done].
    simpl. by apply PlaylistSerializer_create_frame in Hc.
  - unfold mixins.retrieve. by destruct (mixins.get_object _ _ _ _).
  - unfold mixins.update. rewrite playlist_get_object.
    destruct (scoped _ _ _ _) as [[pk' p]|] eqn:Hp; [|done].
    apply scoped_Some in Hp as (Hpk & Hp & Hu). simpl in Hpk, Hp, Hu.
    subst pk'.
    destruct (run_validation _ _ _) as [errors|vd]; [done|].
    pose proof (PlaylistSerializer_update_frame u pk p vd st Hp Hu) as Hf.
    cbn [perform_update PlaylistViewSet.self]. unfold save_instance.
    change (update (get_serializer_class PlaylistViewSet.self (Aupdate pk)))
      with PlaylistSerializer.update.
    by destruct (PlaylistSerializer.update u (pk, p) vd st).
  - unfold mixins.partial_update, mixins.update. rewrite playlist_get_object.
    destruct (scoped _ _ _ _) as [[pk' p]|] eqn:Hp; [|done].
    apply scoped_Some in Hp as (Hpk & Hp & Hu). simpl in Hpk, Hp, Hu.
    subst pk'.
    destruct (run_validation _ _ _) as [errors|vd]; [done|].
    pose proof (PlaylistSerializer_update_frame u pk p vd st Hp Hu) as Hf.
    cbn [perform_update PlaylistViewSet.self]. unfold save_instance.
    change (update (get_serializer_class PlaylistViewSet.self
                      (Apartial_update pk)))
      with PlaylistSerializer.update.
    by destruct (PlaylistSerializer.update u (pk, p) vd st).
  - unfold mixins.destroy. rewrite playlist_get_object.
    destruct (scoped _ _ _ _) as [[pk' p]|] eqn:Hp; [|done].
    apply scoped_Some in Hp as (Hpk & Hp & Hu). simpl in Hpk, Hp, Hu.
    subst pk'. simpl. by apply Playlist_delete_frame.
Qed.

(** ** Detail requests on a row out of the caller's query set *)

Lemma playlist_detail_not_found st (req : Request PlaylistPayload) u pk :
  authenticated_user st req = Some u →
  route req = detail_route pk → method req ≠ POST →
  scoped playlist_user u (Playlist_objects st) pk = None →
  PlaylistViewSet.view st req = (mkResponse 404 (Detail "Not found."), st).
Proof.
  intros Hauth Hr Hm Hnone. unfold_view.
  rewrite (as_view_authenticated _ _ _ u Hauth), Hr.
  destruct (method req); [|done|..]; cbn [router];
    rewrite PlaylistViewSet_actions; cbv zeta;
    unfold mixins.retrieve, mixins.partial_update, mixins.update,
      mixins.destroy;
    by rewrite playlist_get_object, Hnone.
Qed.

Lemma song_detail_not_found st (req : Request (gmap string string)) u pk :
  authenticated_user st req = Some u →
  route req = detail_route pk → is_mutation (method req) = true →
  scoped song_user u (Song_objects st) pk = None →
  SongViewSet.view st req = (mkResponse 404 (Detail "Not found."), st).
Proof.
  intros Hauth Hr Hm Hnone. unfold_view.
  rewrite (as_view_authenticated _ _ _ u Hauth), Hr.
  destruct (method req); try done; cbn [router];
    rewrite SongViewSet_actions; cbv zeta;
    unfold mixins.partial_update, mixins.update, mixins.destroy;
    by rewrite song_get_object, Hnone.
Qed.

Lemma tag_detail_not_found st (req : Request (gmap string string)) u pk :
  authenticated_user st req = Some u →
  route req = detail_route pk → is_mutation (method req) = true →
  scoped tag_user u (Tag_objects st) pk = None →
  TagViewSet.view st req = (mkResponse 404 (Detail "Not found."), st).
Proof.
  intros Hauth Hr Hm Hnone. unfold_view.
  rewrite (as_view_authenticated _ _ _ u Hauth), Hr.
  destruct (method req); try done; cbn [router];
    rewrite TagViewSet_actions; cbv zeta;
    unfold mixins.partial_update, mixins.update, mixins.destroy;
    by rewrite tag_get_object, Hnone.
Qed.

Lemma scoped_foreign {A} (user : A → User) u (t : gmap nat A) pk a :
  t !! pk = Some a → user a ≠ u → scoped user u t pk = None.
Proof. intros Hpk Hu. unfold scoped. by rewrite Hpk, decide_False. Qed.

(** C7: a detail request (GET, PATCH, PUT or DELETE) of an authenticated
    user on the id of a playlist that another user owns is answered 404,
    with nothing of the playlist in the response and the store as it
    was. *)
Theorem foreign_playlist_is_not_found st u (req : Request PlaylistPayload)
    pk p :
  authenticated_user st req = Some u →
  route req = detail_route pk →
  method req ≠ POST →
  Playlist_objects st !! pk = Some p → playlist_user p ≠ u →
  PlaylistViewSet.view st req = (mkResponse 404 (Detail "Not found."), st).
Proof.
  intros Hauth Hr Hm Hpk Hu.
  apply (playlist_detail_not_found st req u pk); [done..|].
  by apply (scoped_foreign _ _ _ _ p).
Qed.

(** C10: an update or delete request of an authenticated user, on any of
    the three endpoints, leaves every row that another user owns as it
    was; aimed at the id of a row of another user, it is answered 404 and
    changes nothing. *)
Theorem mutations_leave_other_users_rows st u
    (req : Request (gmap string string)) (preq : Request PlaylistPayload) :
  authenticated_user st req = Some u →
  authenticated_user st preq = Some u →
  is_mutation (method req) = true → is_mutation (method preq) = true →
  (others_untouched u st (SongViewSet.view st req).2
   ∧ others_untouched u st (TagViewSet.view st req).2
   ∧ others_untouched u st (PlaylistViewSet.view st preq).2)
  ∧ (∀ pk s, route req = detail_route pk →
       Song_objects st !! pk = Some s → song_user s ≠ u →
       SongViewSet.view st req = (mkResponse 404 (Detail "Not found."), st))
  ∧ (∀ pk t, route req = detail_route pk →
       Tag_objects st !! pk = Some t → tag_user t ≠ u →
       TagViewSet.view st req = (mkResponse 404 (Detail "Not found."), st))
  ∧ (∀ pk p, route preq = detail_route pk →
       Playlist_objects st !! pk = Some p → playlist_user p ≠ u →
       PlaylistViewSet.view st preq
       = (mkResponse 404 (Detail "Not found."), st)).
Proof.
  intros Hauth Hpauth Hm Hpm. split_and!.
  - by apply song_view_frame.
  - by apply tag_view_frame.
  - by apply playlist_view_frame.
  - intros pk s Hr Hpk Hu. apply (song_detail_not_found st req u pk); [done..|].
    by apply (scoped_foreign _ _ _ _ s).
  - intros pk t Hr Hpk Hu. apply (tag_detail_not_found st req u pk); [done..|].
    by apply (scoped_foreign _ _ _ _ t).
  - intros pk p Hr Hpk Hu.
    apply (playlist_detail_not_found st preq u pk); [done..| |].
    + intros Hpost. by rewrite Hpost in Hpm.
    + by apply (scoped_foreign _ _ _ _ p).
Qed.

(** ** Updating a song *)

(** C9: a PATCH of a song by its owner is answered 200; afterwards every
    field of the song that the request supplies holds the supplied value,
    every field that it does not supply holds its prior value, the owner is
    the same, and the other songs are as they were. *)
Theorem song_patch_sets_supplied_fields_only st u
    (req : Request (gmap string string)) pk s :
  authenticated_user st req = Some u →
  method req = PATCH → route req = detail_route pk →
  Song_objects st !! pk = Some s → song_user s = u →
  ∃ s' st',
    SongViewSet.view st req = (mkResponse 200 (Object (Song_data (pk, s'))), st')
    ∧ Song_objects st' !! pk = Some s'
    ∧ (∀ f prior, Song_getattr s f = Some prior →
         Song_getattr s' f = Some (default prior (data req !! f)))
    ∧ song_user s' = song_user s
    ∧ (∀ pk', pk' ≠ pk → Song_objects st' !! pk' = Song_objects st !! pk').
Proof.
  intros Hauth Hm Hr Hpk Hu.
  set (s' := mkSong (default (song_name s) (data req !! "name"))
                    (default (song_artist s) (data req !! "artist"))
                    (song_user s)).
  exists s', (Song_save (pk, s') st). subst s'. split_and!.
  - unfold_view.
    rewrite (as_view_authenticated _ _ _ u Hauth), Hm, Hr. cbn [router].
    rewrite SongViewSet_actions. cbv zeta.
    unfold mixins.partial_update, mixins.update.
    rewrite song_get_object. unfold scoped. rewrite Hpk, decide_True by done.
    unfold SongViewSet.serializer_class, SongSerializer.
    cbn [get_serializer_class BasePlaylistAttrViewSet.self
         ModelSerializer.cls run_validation perform_update to_representation].
    unfold ModelSerializer.run_validation, save_instance.
    cbn [negb andb omap list_omap].
    cbn [update ModelSerializer.cls]. unfold ModelSerializer.update.
    destruct s as [n a o].
    destruct (data req !! "name") as [n'|], (data req !! "artist") as [a'|];
      reflexivity.
  - unfold Song_save. simpl. by rewrite lookup_insert_eq.
  - intros f prior. unfold Song_getattr. simpl.
    repeat case_decide; intros ?; simplify_eq; by destruct (data req !! _).
  - done.
  - intros pk' Hne. unfold Song_save. simpl. by rewrite lookup_insert_ne.
Qed.

(** ** Creating a playlist *)

Lemma perform_create_owner serializer u vd st r st' :
  serializer = PlaylistSerializer ∨ serializer = PlaylistDetailSerializer →
  PlaylistViewSet.perform_create serializer u vd st = Some (r, st') →
  playlist_user r.2 = u
  ∧ Playlist_objects st !! r.1 = None
  ∧ Playlist_objects st' = <[r.1 := r.2]> (Playlist_objects st).
Proof.
  intros Hser. unfold PlaylistViewSet.perform_create, save_new.
  assert (create serializer = PlaylistSerializer.create) as ->
    by (by destruct Hser as [-> | ->]).
  unfold PlaylistSerializer.create, Playlist_create, with_user. simpl.
  destruct (p_title vd), (p_time_minutes vd), (p_general_genre vd);
    intros ?; simplify_eq/=.
  split_and!; [done|apply next_pk_fresh|].
  by rewrite add_tags_Playlist_objects, add_songs_Playlist_objects.
Qed.

(** C4: [perform_create] hands the serializer the validated data with the
    requesting user as its [user] entry, whatever serializer it is given
    and whatever entry the data had; with the playlist serializer the row
    it creates is owned by the requester.  A POST on the playlist
    collection of an authenticated user either lacks a required field and
    is refused with 400, or creates, under a new id, one playlist owned by
    the requester, whatever [user] the request data names. *)
Theorem created_playlist_is_owned_by_requester st u
    (req : Request PlaylistPayload) :
  authenticated_user st req = Some u →
  method req = POST → route req = list_route →
  (∀ (serializer
        : Serializer Playlist PlaylistPayload PlaylistPayload PlaylistData) vd,
     PlaylistViewSet.perform_create serializer u vd st
     = create serializer u (with_user u vd) st
     ∧ p_user (with_user u vd) = Some u)
  ∧ (∀ vd r st',
       PlaylistViewSet.perform_create PlaylistViewSet.serializer_class u vd st
       = Some (r, st') →
       playlist_user r.2 = u ∧ Playlist_objects st' !! r.1 = Some r.2)
  ∧ match PlaylistSerializer.missing (data req) with
    | [] =>
        ∃ pk p st',
          PlaylistViewSet.view st req =
          (mkResponse 201 (Object (PlaylistSerializer.detail st' (pk, p))), st')
          ∧ playlist_user p = u
          ∧ Playlist_objects st !! pk = None
          ∧ Playlist_objects st' = <[pk := p]> (Playlist_objects st)
    | fields =>
        PlaylistViewSet.view st req = (mkResponse 400 (Errors fields), st)
    end.
Proof.
  intros Hauth Hm Hr. split_and!.
  - done.
  - intros vd r st' Hc.
    apply perform_create_owner in Hc as (? & ? & Hst'); [|by right].
    split; [done|]. by rewrite Hst', lookup_insert_eq.
  - unfold_view.
    rewrite (as_view_authenticated _ _ _ u Hauth), Hm, Hr. cbn [router].
    rewrite PlaylistViewSet_actions. cbv zeta. unfold mixins.create.
    cbn [get_serializer_class PlaylistViewSet.self
         PlaylistViewSet.get_serializer_class PlaylistViewSet.serializer_class
         PlaylistDetailSerializer run_validation to_representation].
    unfold PlaylistSerializer.run_validation. cbn [negb andb].
    destruct (PlaylistSerializer.missing (data req)) as [|f fields] eqn:Hmiss.
    + rewrite bool_decide_false by (by intros []).
      destruct (perform_create _ _ _ _ _) as [[[pk p] st']|] eqn:Hc.
      * apply perform_create_owner in Hc as (? & ? & ?); [|by right].
        by exists pk, p, st'.
      * exfalso. revert Hc Hmiss.
        cbn [perform_create PlaylistViewSet.self].
        unfold PlaylistViewSet.perform_create, save_new.
        cbn [create]. unfold PlaylistSerializer.create, Playlist_create,
          PlaylistSerializer.missing, with_user. simpl.
        by destruct (p_title (data req)), (p_time_minutes (data req)),
          (p_general_genre (data req)).
    + by rewrite bool_decide_true.
Qed.

(** ** The actions of the song resource *)

Lemma song_update_ok st (req : Request (gmap string string)) u pk s
    partial action :
  Song_objects st !! pk = Some s → song_user s = u →
  partial = true ∨ is_Some (data req !! "name") →
  ∃ s',
    mixins.update
      (BasePlaylistAttrViewSet.self song_name song_user SongViewSet.queryset
         SongViewSet.serializer_class Song_delete)
      partial action pk u req st
    = (mkResponse 200 (Object (Song_data (pk, s'))), Song_save (pk, s') st).
Proof.
  intros Hpk Hu Hvalid. unfold mixins.update.
  rewrite song_get_object. unfold scoped. rewrite Hpk, decide_True by done.
  unfold SongViewSet.serializer_class, SongSerializer.
  cbn [get_serializer_class BasePlaylistAttrViewSet.self
       ModelSerializer.cls run_validation perform_update to_representation].
  unfold ModelSerializer.run_validation.
  assert (negb partial
          && bool_decide (filter (λ f, data req !! f = None) ["name"] ≠ [])
          = false) as ->.
  { destruct Hvalid as [-> | [n Hn]]; [done|].
    rewrite filter_cons, filter_nil, decide_False by (by rewrite Hn).
    rewrite bool_decide_false by (by intros []). by destruct partial. }
  unfold save_instance. cbn [update ModelSerializer.cls].
  unfold ModelSerializer.update. eauto.
Qed.

Lemma song_destroy_ok st (req : Request (gmap string string)) u pk s :
  Song_objects st !! pk = Some s → song_user s = u →
  mixins.destroy
    (BasePlaylistAttrViewSet.self song_name song_user SongViewSet.queryset
       SongViewSet.serializer_class Song_delete) pk u req st
  = (mkResponse 204 Empty, Song_delete (pk, s) st).
Proof.
  intros Hpk Hu. unfold mixins.destroy.
  rewrite song_get_object. unfold scoped. by rewrite Hpk, decide_True.
Qed.

Lemma song_view_of_token st key u m r qp (d : gmap string string) :
  Token_objects st !! key = Some u →
  SongViewSet.view st (mkRequest m r (Some key) qp d) =
  match router m r with
  | None => (viewsets.method_not_allowed, st)
  | Some a =>
      match SongViewSet.cls a with
      | None => (viewsets.method_not_allowed, st)
      | Some handler => handler u (mkRequest m r (Some key) qp d) st
      end
  end.
Proof.
  intros Hkey. unfold_view.
  rewrite (as_view_authenticated _ _ _ u); [done|].
  unfold authenticated_user. simpl. by rewrite Hkey.
Qed.

(** C2, as amended: the song resource has the actions list, update, partial
    update and destroy, and an authenticated user invokes each of them with
    success on a song of their own (a full update has to supply the name);
    it has no create and no retrieve action: a POST on the collection and a
    GET on a song are answered 405. *)
Theorem song_resource_actions st u key qp d d_put pk s :
  Token_objects st !! key = Some u →
  Song_objects st !! pk = Some s → song_user s = u →
  is_Some (d_put !! "name") →
  let request m r d := mkRequest m r (Some key) qp d in
  (∀ a, SongViewSet.cls a = None ↔ a = Acreate ∨ ∃ pk', a = Aretrieve pk')
  ∧ status_code (SongViewSet.view st (request GET list_route d)).1 = 200
  ∧ status_code (SongViewSet.view st (request PUT (detail_route pk) d_put)).1
    = 200
  ∧ status_code (SongViewSet.view st (request PATCH (detail_route pk) d)).1
    = 200
  ∧ status_code (SongViewSet.view st (request DELETE (detail_route pk) d)).1
    = 204
  ∧ Song_objects (SongViewSet.view st (request DELETE (detail_route pk) d)).2
    !! pk = None
  ∧ status_code (SongViewSet.view st (request POST list_route d)).1 = 405
  ∧ status_code (SongViewSet.view st (request GET (detail_route pk) d)).1
    = 405.
Proof.
  intros Hkey Hpk Hu Hput request. subst request. cbv beta.
  rewrite !(song_view_of_token st key u) by done. cbn [router].
  rewrite !SongViewSet_actions. cbv zeta. unfold mixins.partial_update.
  rewrite !(song_destroy_ok st _ u pk s) by done.
  split_and!; try done.
  - intros a. rewrite SongViewSet_actions. cbv zeta.
    destruct a; split; try done; try (intros [?|[? ?]]; done); eauto.
  - by edestruct (song_update_ok st
        (mkRequest PUT (detail_route pk) (Some key) qp d_put) u pk s
        false (Aupdate pk)) as [s' ->]; [done..|by right|].
  - by edestruct (song_update_ok st
        (mkRequest PATCH (detail_route pk) (Some key) qp d) u pk s
        true (Apartial_update pk)) as [s' ->]; [done..|by left|].
  - unfold Song_delete. simpl. by rewrite lookup_delete_eq.
Qed.

Lemma song_create_and_retrieve_not_exposed :
  ¬ (∀ a, a ∈ [Alist; Aretrieve 2; Acreate; Aupdate 2; Adestroy 2] →
       is_Some (SongViewSet.cls a))
  ∧ authenticated_user db_two_users user1_post_song = Some 1
  ∧ Song_objects db_two_users !! 2 = Some (mkSong "Love Buzz" "Nirvana" 1)
  ∧ (SongViewSet.view db_two_users user1_post_song).1
    = mkResponse 405 (Detail "Method not allowed.")
  ∧ (SongViewSet.view db_two_users user1_get_song_2).1
    = mkResponse 405 (Detail "Method not allowed.").
Proof.
  split_and!; try reflexivity.
  intros Hall. destruct (Hall Acreate) as [handler Hcreate].
  - apply elem_of_cons. right. apply elem_of_cons. right. apply elem_of_cons.
    by left.
  - discriminate Hcreate.
Qed.

Lemma song_resource_actions_witness :
  Token_objects db_two_users !! "key-1" = Some 1
  ∧ Song_objects db_two_users !! 2 = Some (mkSong "Love Buzz" "Nirvana" 1)
  ∧ song_user (mkSong "Love Buzz" "Nirvana" 1) = 1
  ∧ is_Some (({[ "name" := "CoolName" ]} : gmap string string) !! "name")
  ∧ ((∀ a, SongViewSet.cls a = None ↔ a = Acreate ∨ ∃ pk', a = Aretrieve pk')
     ∧ status_code (SongViewSet.view db_two_users
         (mkRequest GET list_route (Some "key-1") ∅ ∅)).1 = 200
     ∧ status_code (SongViewSet.view db_two_users
         (mkRequest PUT (detail_route 2) (Some "key-1") ∅
            {[ "name" := "CoolName" ]})).1 = 200
     ∧ status_code (SongViewSet.view db_two_users
         (mkRequest PATCH (detail_route 2) (Some "key-1") ∅ ∅)).1 = 200
     ∧ status_code (SongViewSet.view db_two_users
         (mkRequest DELETE (detail_route 2) (Some "key-1") ∅ ∅)).1 = 204
     ∧ Song_objects (SongViewSet.view db_two_users
         (mkRequest DELETE (detail_route 2) (Some "key-1") ∅ ∅)).2 !! 2 = None
     ∧ status_code (SongViewSet.view db_two_users
         (mkRequest POST list_route (Some "key-1") ∅ ∅)).1 = 405
     ∧ status_code (SongViewSet.view db_two_users
         (mkRequest GET (detail_route 2) (Some "key-1") ∅ ∅)).1 = 405).
Proof.
  split; [reflexivity|]. split; [reflexivity|]. split; [reflexivity|].
  split; [by eexists|].
  apply (song_resource_actions db_two_users 1 "key-1" ∅ ∅
           {[ "name" := "CoolName" ]} 2 (mkSong "Love Buzz" "Nirvana" 1));
    [reflexivity..|by eexists].
Defined.

(** ** The [assigned_only] parameter *)

Lemma song_view_ignores_query_params st m r key qp qp'
    (d : gmap string string) :
  SongViewSet.view st (mkRequest m r key qp d)
  = SongViewSet.view st (mkRequest m r key qp' d).
Proof.
  unfold_view. unfold viewsets.as_view, initial. simpl.
  destruct (match key with Some _ => _ | None => _ end) as [|u|]; try done.
  simpl. destruct (router m r) as [a|]; [|done]. rewrite SongViewSet_actions.
  by destruct a.
Qed.

(** C1, on the code: the song list does not read [assigned_only].  In the
    store of [test_filter_songs_assigned_to_playlists] the response to
    [assigned_only=1] lists "TNT", which no playlist holds; in the store of
    [test_filtered_songs_unique] it lists two songs, "Sunday" once and
    "April", where the test expects one. *)
Theorem assigned_only_is_ignored :
  (∀ st m r key qp (d : gmap string string),
     SongViewSet.view st (mkRequest m r key qp d)
     = SongViewSet.view st (mkRequest m r key ∅ d))
  ∧ (SongViewSet.view db_assigned get_assigned_only).1
    = mkResponse 200 (Array [mkSongData 2 "TNT" "";
                             mkSongData 1 "Back in Black" ""])
  ∧ ¬ assigned db_assigned 2
  ∧ (SongViewSet.view db_unique get_assigned_only).1
    = mkResponse 200 (Array [mkSongData 1 "Sunday" "";
                             mkSongData 2 "April" ""]).
Proof.
  split_and!.
  - intros. apply song_view_ignores_query_params.
  - reflexivity.
  - intros [playlist Hin]. simpl in Hin.
    apply elem_of_singleton in Hin. congruence.
  - reflexivity.
Qed.

(** ** The theorems at the stores of the tests *)

Lemma unauthenticated_request_is_401_witness :
  authenticated_user db_two_users anonymous_get = None
  ∧ authenticated_user db_two_users bad_key_get = None
  ∧ ((status_code (PlaylistViewSet.view db_two_users bad_key_get).1 = 401
      ∧ resources (content (PlaylistViewSet.view db_two_users bad_key_get).1)
        = []
      ∧ (PlaylistViewSet.view db_two_users bad_key_get).2 = db_two_users)
     ∧ (status_code (SongViewSet.view db_two_users anonymous_get).1 = 401
        ∧ resources (content (SongViewSet.view db_two_users anonymous_get).1)
          = []
        ∧ (SongViewSet.view db_two_users anonymous_get).2 = db_two_users)
     ∧ (status_code (TagViewSet.view db_two_users anonymous_get).1 = 401
        ∧ resources (content (TagViewSet.view db_two_users anonymous_get).1)
          = []
        ∧ (TagViewSet.view db_two_users anonymous_get).2 = db_two_users)).
Proof.
  split; [reflexivity|]. split; [reflexivity|].
  apply (unauthenticated_request_is_401 db_two_users anonymous_get bad_key_get);
    reflexivity.
Defined.

Lemma list_responses_are_isolated_witness :
  1 ≠ 2
  ∧ authenticated_user db_two_users user1_get = Some 1
  ∧ authenticated_user db_two_users user1_get_playlists = Some 1
  ∧ ((∀ pk s, Song_objects db_two_users !! pk = Some s → song_user s = 2 →
        pk ∉ sd_id <$>
          resources (content (SongViewSet.view db_two_users user1_get).1))
     ∧ (∀ pk t, Tag_objects db_two_users !! pk = Some t → tag_user t = 2 →
          pk ∉ td_id <$>
            resources (content (TagViewSet.view db_two_users user1_get).1))
     ∧ (∀ pk p, Playlist_objects db_two_users !! pk = Some p →
          playlist_user p = 2 →
          pk ∉ pd_id <$>
            resources
              (content
                 (PlaylistViewSet.view db_two_users user1_get_playlists).1))).
Proof.
  split; [discriminate|]. split; [reflexivity|]. split; [reflexivity|].
  apply (list_responses_are_isolated db_two_users 1 2 user1_get
           user1_get_playlists); [discriminate|reflexivity..].
Defined.

Lemma playlists_of_caller_by_descending_id_witness :
  authenticated_user db_two_users user1_get_playlists = Some 1
  ∧ method user1_get_playlists = GET
  ∧ ∃ l, PlaylistViewSet.view db_two_users user1_get_playlists
         = (mkResponse 200 (Array l), db_two_users)
      ∧ StronglySorted (λ d1 d2, pd_id d2 < pd_id d1) l
      ∧ ∀ d, d ∈ l ↔
          ∃ p, Playlist_objects db_two_users !! pd_id d = Some p
               ∧ playlist_user p = 1
               ∧ d = PlaylistSerializer.summary db_two_users (pd_id d, p).
Proof.
  split; [reflexivity|]. split; [reflexivity|].
  exact (playlists_of_caller_by_descending_id db_two_users 1
           user1_get_playlists eq_refl eq_refl).
Defined.

Lemma songs_and_tags_by_descending_name_witness :
  authenticated_user db_assigned get_assigned_only = Some 1
  ∧ method get_assigned_only = GET
  ∧ route get_assigned_only = list_route
  ∧ ((∃ l, SongViewSet.view db_assigned get_assigned_only
           = (mkResponse 200 (Array l), db_assigned)
        ∧ StronglySorted (λ d1 d2, String.le (sd_name d2) (sd_name d1)) l
        ∧ NoDup (sd_id <$> l)
        ∧ ∀ d, d ∈ l ↔
            ∃ s, Song_objects db_assigned !! sd_id d = Some s
                 ∧ song_user s = 1 ∧ d = Song_data (sd_id d, s))
     ∧ (∃ l, TagViewSet.view db_assigned get_assigned_only
             = (mkResponse 200 (Array l), db_assigned)
          ∧ StronglySorted (λ d1 d2, String.le (td_name d2) (td_name d1)) l
          ∧ NoDup (td_id <$> l)
          ∧ ∀ d, d ∈ l ↔
              ∃ t, Tag_objects db_assigned !! td_id d = Some t
                   ∧ tag_user t = 1 ∧ d = Tag_data (td_id d, t))).
Proof.
  split; [reflexivity|]. split; [reflexivity|]. split; [reflexivity|].
  apply (songs_and_tags_by_descending_name db_assigned 1 get_assigned_only);
    reflexivity.
Defined.

Lemma foreign_playlist_is_not_found_witness :
  authenticated_user db_two_users user1_put_playlist_2 = Some 1
  ∧ route user1_put_playlist_2 = detail_route 2
  ∧ method user1_put_playlist_2 ≠ POST
  ∧ Playlist_objects db_two_users !! 2
    = Some (mkPlaylist "Nevermind" 49 "Grunge" 2)
  ∧ playlist_user (mkPlaylist "Nevermind" 49 "Grunge" 2) ≠ 1
  ∧ PlaylistViewSet.view db_two_users user1_put_playlist_2
    = (mkResponse 404 (Detail "Not found."), db_two_users).
Proof.
  split; [reflexivity|]. split; [reflexivity|]. split; [discriminate|].
  split; [reflexivity|]. split; [discriminate|].
  apply (foreign_playlist_is_not_found db_two_users 1 user1_put_playlist_2 2
           (mkPlaylist "Nevermind" 49 "Grunge" 2));
    [reflexivity|reflexivity|discriminate|reflexivity|discriminate].
Defined.

Lemma mutations_leave_other_users_rows_witness :
  authenticated_user db_two_users user1_delete_1 = Some 1
  ∧ authenticated_user db_two_users user1_put_playlist_2 = Some 1
  ∧ is_mutation (method user1_delete_1) = true
  ∧ is_mutation (method user1_put_playlist_2) = true
  ∧ ((others_untouched 1 db_two_users
        (SongViewSet.view db_two_users user1_delete_1).2
      ∧ others_untouched 1 db_two_users
          (TagViewSet.view db_two_users user1_delete_1).2
      ∧ others_untouched 1 db_two_users
          (PlaylistViewSet.view db_two_users user1_put_playlist_2).2)
     ∧ (∀ pk s, route user1_delete_1 = detail_route pk →
          Song_objects db_two_users !! pk = Some s → song_user s ≠ 1 →
          SongViewSet.view db_two_users user1_delete_1
          = (mkResponse 404 (Detail "Not found."), db_two_users))
     ∧ (∀ pk t, route user1_delete_1 = detail_route pk →
          Tag_objects db_two_users !! pk = Some t → tag_user t ≠ 1 →
          TagViewSet.view db_two_users user1_delete_1
          = (mkResponse 404 (Detail "Not found."), db_two_users))
     ∧ (∀ pk p, route user1_put_playlist_2 = detail_route pk →
          Playlist_objects db_two_users !! pk = Some p → playlist_user p ≠ 1 →
          PlaylistViewSet.view db_two_users user1_put_playlist_2
          = (mkResponse 404 (Detail "Not found."), db_two_users))).
Proof.
  split; [reflexivity|]. split; [reflexivity|]. split; [reflexivity|].
  split; [reflexivity|].
  apply (mutations_leave_other_users_rows db_two_users 1 user1_delete_1
           user1_put_playlist_2); reflexivity.
Defined.

Lemma song_patch_sets_supplied_fields_only_witness :
  authenticated_user db_two_users user1_patch_2 = Some 1
  ∧ method user1_patch_2 = PATCH
  ∧ route user1_patch_2 = detail_route 2
  ∧ Song_objects db_two_users !! 2 = Some (mkSong "Love Buzz" "Nirvana" 1)
  ∧ song_user (mkSong "Love Buzz" "Nirvana" 1) = 1
  ∧ ∃ s' st',
      SongViewSet.view db_two_users user1_patch_2
      = (mkResponse 200 (Object (Song_data (2, s'))), st')
      ∧ Song_objects st' !! 2 = Some s'
      ∧ (∀ f prior,
           Song_getattr (mkSong "Love Buzz" "Nirvana" 1) f = Some prior →
           Song_getattr s' f = Some (default prior (data user1_patch_2 !! f)))
      ∧ song_user s' = 1
      ∧ (∀ pk', pk' ≠ 2 →
           Song_objects st' !! pk' = Song_objects db_two_users !! pk').
Proof.
  split; [reflexivity|]. split; [reflexivity|]. split; [reflexivity|].
  split; [reflexivity|]. split; [reflexivity|].
  apply (song_patch_sets_supplied_fields_only db_two_users 1 user1_patch_2 2
           (mkSong "Love Buzz" "Nirvana" 1)); reflexivity.
Defined.

Lemma created_playlist_is_owned_by_requester_witness :
  authenticated_user db_two_users user1_post_playlist = Some 1
  ∧ method user1_post_playlist = POST
  ∧ route user1_post_playlist = list_route
  ∧ p_user (data user1_post_playlist) = Some 2
  ∧ (∀ (serializer
          : Serializer Playlist PlaylistPayload PlaylistPayload PlaylistData)
        vd,
       PlaylistViewSet.perform_create serializer 1 vd db_two_users
       = create serializer 1 (with_user 1 vd) db_two_users
       ∧ p_user (with_user 1 vd) = Some 1)
  ∧ (∀ vd r st',
       PlaylistViewSet.perform_create PlaylistViewSet.serializer_class 1 vd
         db_two_users = Some (r, st') →
       playlist_user r.2 = 1 ∧ Playlist_objects st' !! r.1 = Some r.2)
  ∧ ∃ pk p st',
      PlaylistViewSet.view db_two_users user1_post_playlist =
      (mkResponse 201 (Object (PlaylistSerializer.detail st' (pk, p))), st')
      ∧ playlist_user p = 1
      ∧ Playlist_objects db_two_users !! pk = None
      ∧ Playlist_objects st' = <[pk := p]> (Playlist_objects db_two_users).
Proof.
  split; [reflexivity|]. split; [reflexivity|]. split; [reflexivity|].
  split; [reflexivity|].
  exact (created_playlist_is_owned_by_requester db_two_users 1
           user1_post_playlist eq_refl eq_refl eq_refl).
Defined.

(** * Further properties of the views *)

(** ** Statuses, and what a refused request leaves behind *)

Lemma authenticated_user_cases {D} st (req : Request D) :
  authenticated_user st req = None ∨ ∃ u, authenticated_user st req = Some u.
Proof. destruct (authenticated_user st req) as [u|]; eauto. Qed.

(** Every way a handler of the mixins can end. *)
Ltac handler_cases :=
  unfold mixins.list, mixins.retrieve, mixins.create, mixins.partial_update,
    mixins.update, mixins.destroy;
  repeat match goal with
  | |- context [mixins.get_object ?s ?u ?pk ?st] =>
      destruct (mixins.get_object s u pk st) as [?|] eqn:?
  | |- context [run_validation ?s ?p ?d] =>
      destruct (run_validation s p d) as [?|?] eqn:?
  | |- context [perform_create ?s ?ser ?u ?vd ?st] =>
      destruct (perform_create s ser u vd st) as [[? ?]|] eqn:?
  | |- context [perform_update ?s ?ser ?u ?i ?vd ?st] =>
      destruct (perform_update s ser u i vd st) as [? ?] eqn:?
  end.

(** Every way a view can answer an authenticated request. *)
Ltac view_cases Hauth :=
  unfold_view; rewrite (as_view_authenticated _ _ _ _ Hauth);
  destruct (method _) eqn:?, (route _) as [|?] eqn:?; cbn [router];
  rewrite ?SongViewSet_actions, ?TagViewSet_actions, ?PlaylistViewSet_actions;
  cbv zeta; handler_cases.

Ltac status_lia :=
  cbv delta [HTTP_200_OK HTTP_201_CREATED HTTP_204_NO_CONTENT
             HTTP_400_BAD_REQUEST HTTP_401_UNAUTHORIZED HTTP_403_FORBIDDEN
             HTTP_404_NOT_FOUND HTTP_405_METHOD_NOT_ALLOWED
             HTTP_500_INTERNAL_SERVER_ERROR] in *;
  lia.

Lemma playlist_view_refused st (req : Request PlaylistPayload) :
  300 ≤ status_code (PlaylistViewSet.view st req).1 ∨ method req = GET →
  (PlaylistViewSet.view st req).2 = st.
Proof.
  destruct (authenticated_user_cases st req) as [Hauth|[u Hauth]].
  - intros _. unfold_view.
    by destruct (as_view_denied PlaylistViewSet.cls st req Hauth) as (c & -> & _).
  - view_cases Hauth; simpl; try done; intros [?|?]; try done; status_lia.
Qed.

Lemma song_view_refused st (req : Request (gmap string string)) :
  300 ≤ status_code (SongViewSet.view st req).1 ∨ method req = GET →
  (SongViewSet.view st req).2 = st.
Proof.
  destruct (authenticated_user_cases st req) as [Hauth|[u Hauth]].
  - intros _. unfold_view.
    by destruct (as_view_denied SongViewSet.cls st req Hauth) as (c & -> & _).
  - view_cases Hauth; simpl; try done; intros [?|?]; try done; status_lia.
Qed.

Lemma tag_view_refused st (req : Request (gmap string string)) :
  300 ≤ status_code (TagViewSet.view st req).1 ∨ method req = GET →
  (TagViewSet.view st req).2 = st.
Proof.
  destruct (authenticated_user_cases st req) as [Hauth|[u Hauth]].
  - intros _. unfold_view.
    by destruct (as_view_denied TagViewSet.cls st req Hauth) as (c & -> & _).
  - view_cases Hauth; simpl; try done; intros [?|?]; try done; status_lia.
Qed.

(** X1: a request that one of the three views answers with an error status
    (400 and above), and every GET, leaves the store exactly as it was. *)
Theorem refused_requests_and_reads_write_nothing st
    (req : Request (gmap string string)) (preq : Request PlaylistPayload) :
  (300 ≤ status_code (PlaylistViewSet.view st preq).1 ∨ method preq = GET →
   (PlaylistViewSet.view st preq).2 = st)
  ∧ (300 ≤ status_code (SongViewSet.view st req).1 ∨ method req = GET →
     (SongViewSet.view st req).2 = st)
  ∧ (300 ≤ status_code (TagViewSet.view st req).1 ∨ method req = GET →
     (TagViewSet.view st req).2 = st).
Proof.
  split_and!;
    [apply playlist_view_refused|apply song_view_refused|apply tag_view_refused].
Qed.

Lemma playlist_view_401 st (req : Request PlaylistPayload) :
  (status_code (PlaylistViewSet.view st req).1 = 401
   ↔ authenticated_user st req = None)
  ∧ status_code (PlaylistViewSet.view st req).1 ≠ 403.
Proof.
  destruct (authenticated_user_cases st req) as [Hauth|[u Hauth]].
  - rewrite Hauth. unfold_view.
    by destruct (as_view_denied PlaylistViewSet.cls st req Hauth) as (c & -> & _).
  - rewrite Hauth. view_cases Hauth; simpl; (split; [split|]; intros ?);
      try done; status_lia.
Qed.

Lemma song_view_401 st (req : Request (gmap string string)) :
  (status_code (SongViewSet.view st req).1 = 401
   ↔ authenticated_user st req = None)
  ∧ status_code (SongViewSet.view st req).1 ≠ 403.
Proof.
  destruct (authenticated_user_cases st req) as [Hauth|[u Hauth]].
  - rewrite Hauth. unfold_view.
    by destruct (as_view_denied SongViewSet.cls st req Hauth) as (c & -> & _).
  - rewrite Hauth. view_cases Hauth; simpl; (split; [split|]; intros ?);
      try done; status_lia.
Qed.

Lemma tag_view_401 st (req : Request (gmap string string)) :
  (status_code (TagViewSet.view st req).1 = 401
   ↔ authenticated_user st req = None)
  ∧ status_code (TagViewSet.view st req).1 ≠ 403.
Proof.
  destruct (authenticated_user_cases st req) as [Hauth|[u Hauth]].
  - rewrite Hauth. unfold_view.
    by destruct (as_view_denied TagViewSet.cls st req Hauth) as (c & -> & _).
  - rewrite Hauth. view_cases Hauth; simpl; (split; [split|]; intros ?);
      try done; status_lia.
Qed.

(** X2: on each of the three views the status is 401 exactly when the
    request has no valid token, and it is never 403: a valid token is all
    that [IsAuthenticated] asks for. *)
Theorem status_401_exactly_without_valid_token st
    (req : Request (gmap string string)) (preq : Request PlaylistPayload) :
  ((status_code (PlaylistViewSet.view st preq).1 = 401
    ↔ authenticated_user st preq = None)
   ∧ status_code (PlaylistViewSet.view st preq).1 ≠ 403)
  ∧ ((status_code (SongViewSet.view st req).1 = 401
      ↔ authenticated_user st req = None)
     ∧ status_code (SongViewSet.view st req).1 ≠ 403)
  ∧ ((status_code (TagViewSet.view st req).1 = 401
      ↔ authenticated_user st req = None)
     ∧ status_code (TagViewSet.view st req).1 ≠ 403).
Proof.
  split; [apply playlist_view_401|].
  split; [apply song_view_401|apply tag_view_401].
Qed.

(** ** Methods and actions *)


(** X4: the playlist view renders with the serializer that
    [get_serializer_class] picks for the action.  In every response with a
    success status the list action carries the rows in the form of
    [PlaylistSerializer], destroy carries nothing, and retrieve, create,
    update and partial update carry one row in the form of
    [PlaylistDetailSerializer]. *)
Theorem playlist_action_decides_the_serializer st u
    (preq : Request PlaylistPayload) :
  authenticated_user st preq = Some u →
  status_code (PlaylistViewSet.view st preq).1 < 300 →
  match router (method preq) (route preq) with
  | Some Alist =>
      ∃ rows,
        content (PlaylistViewSet.view st preq).1
        = Array (to_representation PlaylistSerializer
                   (PlaylistViewSet.view st preq).2 <$> rows)
  | Some (Adestroy _) => content (PlaylistViewSet.view st preq).1 = Empty
  | _ =>
      ∃ row,
        content (PlaylistViewSet.view st preq).1
        = Object (to_representation PlaylistDetailSerializer
                    (PlaylistViewSet.view st preq).2 row)
  end.
Proof.
  intros Hauth. view_cases Hauth; simpl; intros Hstatus; try status_lia;
    try done; eexists; reflexivity.
Qed.

(** ** An id that no row has *)

Lemma scoped_absent {A} (user : A → User) u (t : gmap nat A) pk :
  t !! pk = None → scoped user u t pk = None.
Proof. intros Hpk. unfold scoped. by rewrite Hpk. Qed.

(** X5: a detail request of an authenticated user on an id that no row of
    the table has is answered 404, whatever its payload, and changes
    nothing: GET, PUT, PATCH and DELETE on the playlist view, PUT, PATCH and
    DELETE on the song and tag views. *)
Theorem unknown_id_is_not_found st u
    (req : Request (gmap string string)) (preq : Request PlaylistPayload) pk :
  authenticated_user st req = Some u →
  authenticated_user st preq = Some u →
  route req = detail_route pk → route preq = detail_route pk →
  (Playlist_objects st !! pk = None → method preq ≠ POST →
   PlaylistViewSet.view st preq = (mkResponse 404 (Detail "Not found."), st))
  ∧ (Song_objects st !! pk = None → is_mutation (method req) = true →
     SongViewSet.view st req = (mkResponse 404 (Detail "Not found."), st))
  ∧ (Tag_objects st !! pk = None → is_mutation (method req) = true →
     TagViewSet.view st req = (mkResponse 404 (Detail "Not found."), st)).
Proof.
  intros Hauth Hpauth Hr Hpr. split_and!.
  - intros Hpk Hm. apply (playlist_detail_not_found st preq u pk); [done..|].
    by apply scoped_absent.
  - intros Hpk Hm. apply (song_detail_not_found st req u pk); [done..|].
    by apply scoped_absent.
  - intros Hpk Hm. apply (tag_detail_not_found st req u pk); [done..|].
    by apply scoped_absent.
Qed.

(** ** Lists *)

Lemma nil_of_no_elem {X} (l : list X) : (∀ x, x ∉ l) → l = [].
Proof. destruct l as [|x l]; [done|]. intros H. destruct (H x). by left. Qed.

(** X6: a user who owns no row of a table gets 200 and the empty list on
    its collection, whatever the other users own. *)
Theorem owner_of_nothing_lists_nothing st u
    (req : Request (gmap string string)) (preq : Request PlaylistPayload) :
  authenticated_user st req = Some u →
  authenticated_user st preq = Some u →
  method req = GET → route req = list_route →
  method preq = GET → route preq = list_route →
  ((∀ pk p, Playlist_objects st !! pk = Some p → playlist_user p ≠ u) →
   PlaylistViewSet.view st preq = (mkResponse 200 (Array []), st))
  ∧ ((∀ pk s, Song_objects st !! pk = Some s → song_user s ≠ u) →
     SongViewSet.view st req = (mkResponse 200 (Array []), st))
  ∧ ((∀ pk t, Tag_objects st !! pk = Some t → tag_user t ≠ u) →
     TagViewSet.view st req = (mkResponse 200 (Array []), st)).
Proof.
  intros Hauth Hpauth Hm Hr Hpm Hpr. split_and!.
  - intros Hnone. rewrite (playlist_list st preq u) by done.
    rewrite (nil_of_no_elem (PlaylistViewSet.get_queryset u st)); [done|].
    intros [pk p] [Hu Hp]%playlist_get_queryset_lookup. by eapply Hnone.
  - intros Hnone. rewrite (song_list st req u) by done.
    rewrite (nil_of_no_elem (SongViewSet.get_queryset u st)); [done|].
    intros [pk s] [Hu Hs]%song_get_queryset_elem. by eapply Hnone.
  - intros Hnone. rewrite (tag_list st req u) by done.
    rewrite (nil_of_no_elem (TagViewSet.get_queryset u st)); [done|].
    intros [pk t] [Hu Ht]%tag_get_queryset_elem. by eapply Hnone.
Qed.

Lemma NoDup_of_NoDup_fst {A} (qs : list (nat * A)) : NoDup qs.*1 → NoDup qs.
Proof. apply NoDup_fmap_1. Qed.

(** X7: the playlist list of a user is a function of the playlists the
    user owns: two stores that hold the same playlists of the user answer
    the list request with the same response, whatever else they hold. *)
Theorem playlist_list_depends_on_own_playlists_only st1 st2 u
    (preq : Request PlaylistPayload) :
  authenticated_user st1 preq = Some u →
  authenticated_user st2 preq = Some u →
  method preq = GET → route preq = list_route →
  (∀ pk p, playlist_user p = u →
     (Playlist_objects st1 !! pk = Some p ↔ Playlist_objects st2 !! pk = Some p)) →
  (PlaylistViewSet.view st1 preq).1 = (PlaylistViewSet.view st2 preq).1.
Proof.
  intros Hauth1 Hauth2 Hm Hr Hsame.
  rewrite (playlist_list st1 preq u), (playlist_list st2 preq u) by done.
  simpl. do 2 f_equal.
  assert (PlaylistViewSet.get_queryset u st1 = PlaylistViewSet.get_queryset u st2)
    as ->; [|done].
  apply (StronglySorted_unique_strong QuerySet.desc_id).
  - intros [pk1 p1] [pk2 p2] Hin1 Hin2. unfold QuerySet.desc_id. simpl.
    intros ? ?. assert (pk1 = pk2) as -> by lia. f_equal.
    apply playlist_get_queryset_lookup in Hin1 as [_ Hp1].
    apply playlist_get_queryset_lookup in Hin2 as [Hu2 Hp2].
    apply (Hsame pk2 p2 Hu2) in Hp2. simpl in *. congruence.
  - apply sorted_order_by_desc_id.
  - apply sorted_order_by_desc_id.
  - apply NoDup_Permutation.
    + apply NoDup_of_NoDup_fst, playlist_get_queryset_NoDup.
    + apply NoDup_of_NoDup_fst, playlist_get_queryset_NoDup.
    + intros [pk p]. rewrite !playlist_get_queryset_lookup. simpl.
      split; intros [Hu Hp]; (split; [done|]); by apply (Hsame pk p Hu).
Qed.

(** X8: the song list, and the tag list, of a user hold the same entries
    in two stores that hold the same songs, or tags, of the user: the rows
    of the other users add nothing to them and take nothing from them. *)
Theorem song_and_tag_lists_depend_on_own_rows_only st1 st2 u
    (req : Request (gmap string string)) :
  authenticated_user st1 req = Some u →
  authenticated_user st2 req = Some u →
  method req = GET → route req = list_route →
  ((∀ pk s, song_user s = u →
      (Song_objects st1 !! pk = Some s ↔ Song_objects st2 !! pk = Some s)) →
   ∃ l1 l2,
     (SongViewSet.view st1 req).1 = mkResponse 200 (Array l1)
     ∧ (SongViewSet.view st2 req).1 = mkResponse 200 (Array l2)
     ∧ l1 ≡ₚ l2)
  ∧ ((∀ pk t, tag_user t = u →
        (Tag_objects st1 !! pk = Some t ↔ Tag_objects st2 !! pk = Some t)) →
     ∃ l1 l2,
       (TagViewSet.view st1 req).1 = mkResponse 200 (Array l1)
       ∧ (TagViewSet.view st2 req).1 = mkResponse 200 (Array l2)
       ∧ l1 ≡ₚ l2).
Proof.
  intros Hauth1 Hauth2 Hm Hr. split.
  - intros Hsame.
    rewrite (song_list st1 req u), (song_list st2 req u) by done.
    eexists _, _. split; [done|]. split; [done|].
    apply fmap_Permutation, NoDup_Permutation.
    + apply NoDup_of_NoDup_fst,
        (base_get_queryset_NoDup song_name song_user Song_objects).
    + apply NoDup_of_NoDup_fst,
        (base_get_queryset_NoDup song_name song_user Song_objects).
    + intros [pk s]. rewrite !song_get_queryset_elem. simpl.
      split; intros [Hu Hs]; (split; [done|]); by apply (Hsame pk s Hu).
  - intros Hsame.
    rewrite (tag_list st1 req u), (tag_list st2 req u) by done.
    eexists _, _. split; [done|]. split; [done|].
    apply fmap_Permutation, NoDup_Permutation.
    + apply NoDup_of_NoDup_fst,
        (base_get_queryset_NoDup tag_name tag_user Tag_objects).
    + apply NoDup_of_NoDup_fst,
        (base_get_queryset_NoDup tag_name tag_user Tag_objects).
    + intros [pk t]. rewrite !tag_get_queryset_elem. simpl.
      split; intros [Hu Ht]; (split; [done|]); by apply (Hsame pk t Hu).
Qed.

(** ** Deleting *)

Lemma authenticated_user_tokens {D} st st' (req : Request D) :
  Token_objects st' = Token_objects st →
  authenticated_user st' req = authenticated_user st req.
Proof. intros Htok. unfold authenticated_user. simpl. by rewrite Htok. Qed.

(** X9: a DELETE of a song by its owner is answered 204; the song leaves
    the table and every playlist that held it, nothing else changes, and
    the same request again is answered 404. *)
Theorem deleting_own_song st u (req : Request (gmap string string)) pk s :
  authenticated_user st req = Some u →
  method req = DELETE → route req = detail_route pk →
  Song_objects st !! pk = Some s → song_user s = u →
  ∃ st',
    SongViewSet.view st req = (mkResponse 204 Empty, st')
    ∧ Song_objects st' = delete pk (Song_objects st)
    ∧ (∀ playlist song,
         (playlist, song) ∈ playlist_songs st' ↔
         (playlist, song) ∈ playlist_songs st ∧ song ≠ pk)
    ∧ Tag_objects st' = Tag_objects st
    ∧ Playlist_objects st' = Playlist_objects st
    ∧ playlist_tags st' = playlist_tags st
    ∧ Token_objects st' = Token_objects st
    ∧ SongViewSet.view st' req = (mkResponse 404 (Detail "Not found."), st').
Proof.
  intros Hauth Hm Hr Hpk Hu. exists (Song_delete (pk, s) st). split_and!;
    try done.
  - unfold_view. rewrite (as_view_authenticated _ _ _ u Hauth), Hm, Hr.
    cbn [router]. rewrite SongViewSet_actions. cbv zeta.
    by apply song_destroy_ok.
  - intros playlist song. unfold Song_delete. simpl.
    rewrite elem_of_filter. simpl. tauto.
  - apply (song_detail_not_found _ req u pk); [|done|by rewrite Hm|].
    + by rewrite (authenticated_user_tokens st).
    + apply scoped_absent. unfold Song_delete. simpl.
      by rewrite lookup_delete_eq.
Qed.

(** X10: a DELETE of a playlist by its owner is answered 204; the playlist
    leaves the table and its links to songs and tags go with it, but no
    song and no tag is deleted; afterwards its id is answered 404. *)
Theorem deleting_own_playlist st u (preq : Request PlaylistPayload) pk p :
  authenticated_user st preq = Some u →
  method preq = DELETE → route preq = detail_route pk →
  Playlist_objects st !! pk = Some p → playlist_user p = u →
  ∃ st',
    PlaylistViewSet.view st preq = (mkResponse 204 Empty, st')
    ∧ Playlist_objects st' = delete pk (Playlist_objects st)
    ∧ (∀ playlist song,
         (playlist, song) ∈ playlist_songs st' ↔
         (playlist, song) ∈ playlist_songs st ∧ playlist ≠ pk)
    ∧ (∀ playlist tag,
         (playlist, tag) ∈ playlist_tags st' ↔
         (playlist, tag) ∈ playlist_tags st ∧ playlist ≠ pk)
    ∧ Song_objects st' = Song_objects st
    ∧ Tag_objects st' = Tag_objects st
    ∧ Token_objects st' = Token_objects st
    ∧ PlaylistViewSet.view st' preq
      = (mkResponse 404 (Detail "Not found."), st').
Proof.
  intros Hauth Hm Hr Hpk Hu. exists (Playlist_delete (pk, p) st).
  split_and!; try done.
  - unfold_view. rewrite (as_view_authenticated _ _ _ u Hauth), Hm, Hr.
    cbn [router]. rewrite PlaylistViewSet_actions. cbv zeta.
    unfold mixins.destroy. rewrite playlist_get_object. unfold scoped.
    by rewrite Hpk, decide_True.
  - intros playlist song. unfold Playlist_delete. simpl.
    rewrite elem_of_filter. simpl. tauto.
  - intros playlist tag. unfold Playlist_delete. simpl.
    rewrite elem_of_filter. simpl. tauto.
  - apply (playlist_detail_not_found _ preq u pk); [|done|by rewrite Hm|].
    + by rewrite (authenticated_user_tokens st).
    + apply scoped_absent. unfold Playlist_delete. simpl.
      by rewrite lookup_delete_eq.
Qed.

(** ** Creating, then listing and retrieving *)

Lemma next_pk_above {A} (t : gmap nat A) pk a :
  t !! pk = Some a → pk < next_pk t.
Proof.
  intros Hpk. apply elem_of_map_to_list in Hpk.
  apply (list_elem_of_fmap_2 fst) in Hpk. simpl in Hpk.
  apply max_list_elem_of_le in Hpk. unfold next_pk. lia.
Qed.

Lemma desc_id_sorted_unique {A} (l1 l2 : list (nat * A)) :
  NoDup l1.*1 → NoDup l2.*1 →
  StronglySorted QuerySet.desc_id l1 → StronglySorted QuerySet.desc_id l2 →
  (∀ r, r ∈ l1 ↔ r ∈ l2) →
  l1 = l2.
Proof.
  intros Hnd1 Hnd2 Hs1 Hs2 Hsame.
  apply (StronglySorted_unique_strong QuerySet.desc_id); [|done..|].
  - intros [pk1 a1] [pk2 a2] Hin1 Hin2. unfold QuerySet.desc_id. simpl.
    intros ? ?. assert (pk1 = pk2) as -> by lia. f_equal.
    apply Hsame in Hin1. by apply (NoDup_fst_unique l2 pk2).
  - apply NoDup_Permutation; [by apply NoDup_of_NoDup_fst..|done].
Qed.

Lemma add_songs_Token_objects u playlist songs st :
  Token_objects (add_songs u playlist songs st) = Token_objects st.
Proof.
  unfold add_songs. revert st. induction songs as [|na songs IH]; intros st;
    [done|].
  simpl. rewrite IH. unfold Song_get_or_create.
  by destruct (filter _ _).
Qed.

Lemma add_tags_Token_objects u playlist tags st :
  Token_objects (add_tags u playlist tags st) = Token_objects st.
Proof.
  unfold add_tags. revert st. induction tags as [|n tags IH]; intros st;
    [done|].
  simpl. rewrite IH. unfold Tag_get_or_create.
  by destruct (filter _ _).
Qed.

Lemma PlaylistSerializer_update_Token_objects u r vd st :
  Token_objects (PlaylistSerializer.update u r vd st).2 = Token_objects st.
Proof.
  unfold PlaylistSerializer.update. simpl.
  destruct (p_tags vd), (p_songs vd);
    rewrite ?add_tags_Token_objects; simpl;
    rewrite ?add_songs_Token_objects; done.
Qed.

(** What a POST on the playlist collection does when no required field is
    missing. *)
Lemma playlist_create_result st u (preq : Request PlaylistPayload) :
  authenticated_user st preq = Some u →
  method preq = POST → route preq = list_route →
  PlaylistSerializer.missing (data preq) = [] →
  ∃ p st',
    PlaylistViewSet.view st preq =
    (mkResponse 201
       (Object (PlaylistSerializer.detail st'
                  (next_pk (Playlist_objects st), p))), st')
    ∧ p_title (data preq) = Some (title p)
    ∧ p_time_minutes (data preq) = Some (time_minutes p)
    ∧ p_general_genre (data preq) = Some (general_genre p)
    ∧ playlist_user p = u
    ∧ Playlist_objects st'
      = <[next_pk (Playlist_objects st) := p]> (Playlist_objects st)
    ∧ Token_objects st' = Token_objects st.
Proof.
  intros Hauth Hm Hr Hmiss. unfold_view.
  rewrite (as_view_authenticated _ _ _ u Hauth), Hm, Hr. cbn [router].
  rewrite PlaylistViewSet_actions. cbv zeta. unfold mixins.create.
  cbn [get_serializer_class PlaylistViewSet.self
       PlaylistViewSet.get_serializer_class PlaylistViewSet.serializer_class
       PlaylistDetailSerializer run_validation to_representation
       perform_create].
  unfold PlaylistSerializer.run_validation. cbn [negb andb].
  rewrite Hmiss, bool_decide_false by (by intros []).
  unfold PlaylistViewSet.perform_create, save_new. cbn [create].
  unfold PlaylistSerializer.create, Playlist_create, with_user. simpl.
  revert Hmiss. unfold PlaylistSerializer.missing.
  destruct (p_title (data preq)) as [t|], (p_time_minutes (data preq)) as [m|],
    (p_general_genre (data preq)) as [g|]; try done. intros _.
  eexists (mkPlaylist t m g u), _. split; [reflexivity|].
  split_and!; try done.
  - by rewrite add_tags_Playlist_objects, add_songs_Playlist_objects.
  - by rewrite add_tags_Token_objects, add_songs_Token_objects.
Qed.

(** X11: after a POST that creates a playlist, the creator's list is the
    new playlist, with the fields the request gave, followed by the list
    as it was before: the new playlist has the largest id and the list is
    in descending order of id. *)
Theorem created_playlist_heads_the_list st u
    (preq preq' : Request PlaylistPayload) :
  authenticated_user st preq = Some u →
  method preq = POST → route preq = list_route →
  PlaylistSerializer.missing (data preq) = [] →
  HTTP_AUTHORIZATION preq' = HTTP_AUTHORIZATION preq →
  method preq' = GET → route preq' = list_route →
  ∃ pk p st' before,
    PlaylistViewSet.view st preq =
    (mkResponse 201 (Object (PlaylistSerializer.detail st' (pk, p))), st')
    ∧ p_title (data preq) = Some (title p)
    ∧ p_time_minutes (data preq) = Some (time_minutes p)
    ∧ p_general_genre (data preq) = Some (general_genre p)
    ∧ (PlaylistViewSet.view st preq').1 = mkResponse 200 (Array before)
    ∧ (PlaylistViewSet.view st' preq').1
      = mkResponse 200 (Array (PlaylistSerializer.summary st' (pk, p) :: before)).
Proof.
  intros Hauth Hm Hr Hmiss Hkey Hm' Hr'.
  destruct (playlist_create_result st u preq Hauth Hm Hr Hmiss)
    as (p & st' & Hview & Ht & Hmin & Hg & Hu & Hobj & Htok).
  set (pk := next_pk (Playlist_objects st)) in *.
  assert (authenticated_user st preq' = Some u) as Hauth'.
  { unfold authenticated_user in *. by rewrite Hkey. }
  assert (authenticated_user st' preq' = Some u) as Hauth''.
  { by rewrite (authenticated_user_tokens st). }
  exists pk, p, st', (PlaylistSerializer.summary st
                       <$> PlaylistViewSet.get_queryset u st).
  split_and!; try done.
  - by rewrite (playlist_list st preq' u).
  - rewrite (playlist_list st' preq' u) by done. simpl. do 2 f_equal.
    change (PlaylistSerializer.summary st' (pk, p)
            :: (PlaylistSerializer.summary st
                  <$> PlaylistViewSet.get_queryset u st))
      with (PlaylistSerializer.summary st'
              <$> (pk, p) :: PlaylistViewSet.get_queryset u st).
    f_equal. apply desc_id_sorted_unique.
    + apply playlist_get_queryset_NoDup.
    + rewrite fmap_cons. apply NoDup_cons. split;
        [|apply playlist_get_queryset_NoDup].
      intros ([pk' p'] & Hpk' & [_ Hin]%playlist_get_queryset_lookup)
        %list_elem_of_fmap.
      simpl in *. subst pk'. subst pk. by rewrite next_pk_fresh in Hin.
    + apply sorted_order_by_desc_id.
    + apply StronglySorted_cons. split; [|apply sorted_order_by_desc_id].
      apply Forall_forall.
      intros [pk' p'] [_ Hin]%playlist_get_queryset_lookup.
      unfold QuerySet.desc_id. simpl in *.
      apply next_pk_above in Hin. subst pk. lia.
    + intros [pk' p']. rewrite elem_of_cons, !playlist_get_queryset_lookup.
      simpl. rewrite Hobj. split.
      * intros [Hu' Hin]. apply lookup_insert_Some in Hin as [[<- <-]|[? ?]];
          [by left|by right].
      * intros [Heq|[Hu' Hin]].
        -- simplify_eq. by rewrite lookup_insert_eq.
        -- split; [done|]. rewrite lookup_insert_ne; [done|].
           intros <-. subst pk. by rewrite next_pk_fresh in Hin.
Qed.

Lemma filter_all {X} (P : X → Prop) `{∀ x, Decision (P x)} (l : list X) :
  (∀ x, x ∈ l → P x) → filter P l = l.
Proof.
  induction l as [|x l IH]; [done|]. intros Hall.
  rewrite filter_cons, decide_True by (apply Hall; left).
  f_equal. apply IH. intros y Hy. apply Hall. by right.
Qed.

(** X12: when every song of the store belongs to the caller, the song list
    is the serialization of [Song.objects.all().order_by('-name')], which
    is what [test_retrieve_songs] compares the response with. *)
Theorem song_list_of_sole_owner st u (req : Request (gmap string string)) :
  authenticated_user st req = Some u →
  method req = GET → route req = list_route →
  (∀ pk s, Song_objects st !! pk = Some s → song_user s = u) →
  SongViewSet.view st req =
  (mkResponse 200
     (Array (to_representation SongSerializer st
               <$> QuerySet.order_by_desc_name song_name
                     (QuerySet.all (Song_objects st)))), st).
Proof.
  intros Hauth Hm Hr Hall. rewrite (song_list st req u) by done.
  unfold SongViewSet.get_queryset, BasePlaylistAttrViewSet.get_queryset,
    SongViewSet.queryset, QuerySet.filter_user.
  rewrite filter_all; [done|].
  intros [pk s] Hin%elem_of_all. by apply (Hall pk).
Qed.

Lemma run_validation_no_user partial d vd :
  PlaylistSerializer.run_validation partial d = inr vd → p_user vd = None.
Proof.
  unfold PlaylistSerializer.run_validation.
  destruct (negb partial && _); intros ?; by simplify_eq.
Qed.

Lemma playlist_retrieve_own st u (preq : Request PlaylistPayload) pk p :
  authenticated_user st preq = Some u →
  method preq = GET → route preq = detail_route pk →
  Playlist_objects st !! pk = Some p → playlist_user p = u →
  PlaylistViewSet.view st preq =
  (mkResponse 200 (Object (PlaylistSerializer.detail st (pk, p))), st).
Proof.
  intros Hauth Hm Hr Hpk Hu. unfold_view.
  rewrite (as_view_authenticated _ _ _ u Hauth), Hm, Hr. cbn [router].
  rewrite PlaylistViewSet_actions. cbv zeta. unfold mixins.retrieve.
  rewrite playlist_get_object. unfold scoped.
  by rewrite Hpk, decide_True.
Qed.

Lemma playlist_update_result st u (preq : Request PlaylistPayload) pk
    partial action :
  status_code (mixins.update PlaylistViewSet.self partial action pk u preq st).1
  < 300 →
  action ≠ Alist →
  ∃ p vd,
    Playlist_objects st !! pk = Some p ∧ playlist_user p = u
    ∧ p_user vd = None
    ∧ mixins.update PlaylistViewSet.self partial action pk u preq st =
      (mkResponse 200
         (Object (PlaylistSerializer.detail
                    (PlaylistSerializer.update u (pk, p) vd st).2
                    (pk, Playlist_setattrs p vd))),
       (PlaylistSerializer.update u (pk, p) vd st).2).
Proof.
  unfold mixins.update. rewrite playlist_get_object.
  destruct (scoped _ _ _ _) as [[pk' p]|] eqn:Hp; [|simpl; status_lia].
  apply scoped_Some in Hp as (Hpk' & Hp & Hu). simpl in Hpk', Hp, Hu.
  subst pk'. intros Hstatus Haction.
  assert (get_serializer_class PlaylistViewSet.self action
          = PlaylistDetailSerializer) as Hser by (by destruct action).
  rewrite Hser in *.
  cbn [run_validation PlaylistDetailSerializer] in *.
  destruct (PlaylistSerializer.run_validation partial (data preq))
    as [errors|vd] eqn:Hvd; [simpl in Hstatus; status_lia|].
  exists p, vd. split_and!; [done..|by eapply run_validation_no_user|].
  reflexivity.
Qed.

(** X13: the playlist that a successful POST, PUT or PATCH answers with is
    what a GET of its id by the same user answers afterwards. *)
Theorem playlist_written_is_playlist_read st u
    (preq : Request PlaylistPayload) :
  authenticated_user st preq = Some u →
  method preq ≠ GET → method preq ≠ DELETE →
  status_code (PlaylistViewSet.view st preq).1 < 300 →
  ∃ written st',
    (PlaylistViewSet.view st preq).2 = st'
    ∧ content (PlaylistViewSet.view st preq).1 = Object written
    ∧ ∀ preq' : Request PlaylistPayload,
        HTTP_AUTHORIZATION preq' = HTTP_AUTHORIZATION preq →
        method preq' = GET → route preq' = detail_route (pd_id written) →
        PlaylistViewSet.view st' preq' = (mkResponse 200 (Object written), st').
Proof.
  intros Hauth Hget Hdel Hstatus.
  assert (∀ st' (preq' : Request PlaylistPayload),
            Token_objects st' = Token_objects st →
            HTTP_AUTHORIZATION preq' = HTTP_AUTHORIZATION preq →
            authenticated_user st' preq' = Some u) as Hauth'.
  { intros st' preq' Htok Hkey. rewrite (authenticated_user_tokens st) by done.
    unfold authenticated_user in *. by rewrite Hkey. }
  destruct (method preq) eqn:Hm; try done;
    destruct (route preq) as [|pk] eqn:Hr;
    try (revert Hstatus; unfold_view;
         rewrite (as_view_authenticated _ _ _ u Hauth), Hm, Hr;
         simpl; intros ?; status_lia).
  - (* create *)
    destruct (PlaylistSerializer.missing (data preq)) as [|f fields] eqn:Hmiss.
    + destruct (playlist_create_result st u preq Hauth Hm Hr Hmiss)
        as (p & st' & Hview & _ & _ & _ & Hu & Hobj & Htok).
      rewrite Hview. eexists _, st'. split; [done|]. split; [done|].
      intros preq' Hkey Hm' Hr'. simpl in Hr'.
      apply (playlist_retrieve_own st' u); [by apply Hauth'|done..| |done].
      by rewrite Hobj, lookup_insert_eq.
    + exfalso. revert Hstatus. unfold_view.
      rewrite (as_view_authenticated _ _ _ u Hauth), Hm, Hr. cbn [router].
      rewrite PlaylistViewSet_actions. cbv zeta. unfold mixins.create.
      cbn [get_serializer_class PlaylistViewSet.self
           PlaylistViewSet.get_serializer_class
           PlaylistViewSet.serializer_class PlaylistDetailSerializer
           run_validation].
      unfold PlaylistSerializer.run_validation. cbn [negb andb].
      rewrite Hmiss, bool_decide_true by done. simpl. status_lia.
  - (* update *)
    revert Hstatus. unfold_view.
    rewrite (as_view_authenticated _ _ _ u Hauth), Hm, Hr. cbn [router].
    rewrite PlaylistViewSet_actions. cbv zeta. intros Hstatus.
    destruct (playlist_update_result st u preq pk false (Aupdate pk) Hstatus)
      as (p & vd & Hp & Hu & Hnouser & ->); [done|].
    eexists _, (PlaylistSerializer.update u (pk, p) vd st).2.
    split; [done|]. split; [done|].
    intros preq' Hkey Hm' Hr'. simpl in Hr'.
    apply (playlist_retrieve_own _ u); [|done..| |].
    + apply Hauth'; [|done]. apply PlaylistSerializer_update_Token_objects.
    + rewrite PlaylistSerializer_update_Playlist_objects. simpl.
      by rewrite lookup_insert_eq.
    + unfold Playlist_setattrs. simpl. by rewrite Hnouser.
  - (* partial update *)
    revert Hstatus. unfold_view.
    rewrite (as_view_authenticated _ _ _ u Hauth), Hm, Hr. cbn [router].
    rewrite PlaylistViewSet_actions. cbv zeta. unfold mixins.partial_update.
    intros Hstatus.
    destruct (playlist_update_result st u preq pk true (Apartial_update pk)
                Hstatus) as (p & vd & Hp & Hu & Hnouser & ->); [done|].
    eexists _, (PlaylistSerializer.update u (pk, p) vd st).2.
    split; [done|]. split; [done|].
    intros preq' Hkey Hm' Hr'. simpl in Hr'.
    apply (playlist_retrieve_own _ u); [|done..| |].
    + apply Hauth'; [|done]. apply PlaylistSerializer_update_Token_objects.
    + rewrite PlaylistSerializer_update_Playlist_objects. simpl.
      by rewrite lookup_insert_eq.
    + unfold Playlist_setattrs. simpl. by rewrite Hnouser.
Qed.

(** ** The further properties at the stores of the tests *)

(** The rows of a table that is written out. *)
Ltac written_rows :=
  repeat match goal with
  | H : <[_ := _]> _ !! _ = Some _ |- _ =>
      apply lookup_insert_Some in H as [[<- <-]|[? H]]
  | H : {[_ := _]} !! _ = Some _ |- _ =>
      apply lookup_singleton_Some in H as [<- <-]
  | H : ∅ !! _ = Some _ |- _ => by rewrite lookup_empty in H
  end.


Lemma playlist_action_decides_the_serializer_witness :
  authenticated_user db_two_users user1_get_playlists = Some 1
  ∧ status_code (PlaylistViewSet.view db_two_users user1_get_playlists).1 < 300
  ∧ ∃ rows,
      content (PlaylistViewSet.view db_two_users user1_get_playlists).1
      = Array (to_representation PlaylistSerializer
                 (PlaylistViewSet.view db_two_users user1_get_playlists).2
               <$> rows).
Proof.
  assert (status_code (PlaylistViewSet.view db_two_users user1_get_playlists).1
          < 300) as Hstatus by (vm_compute; lia).
  split; [reflexivity|]. split; [exact Hstatus|].
  exact (playlist_action_decides_the_serializer db_two_users 1
           user1_get_playlists eq_refl Hstatus).
Defined.

Lemma unknown_id_is_not_found_witness :
  authenticated_user db_two_users user1_delete_7 = Some 1
  ∧ authenticated_user db_two_users user1_get_playlist_7 = Some 1
  ∧ route user1_delete_7 = detail_route 7
  ∧ route user1_get_playlist_7 = detail_route 7
  ∧ Playlist_objects db_two_users !! 7 = None
  ∧ Song_objects db_two_users !! 7 = None
  ∧ Tag_objects db_two_users !! 7 = None
  ∧ PlaylistViewSet.view db_two_users user1_get_playlist_7
    = (mkResponse 404 (Detail "Not found."), db_two_users)
  ∧ SongViewSet.view db_two_users user1_delete_7
    = (mkResponse 404 (Detail "Not found."), db_two_users)
  ∧ TagViewSet.view db_two_users user1_delete_7
    = (mkResponse 404 (Detail "Not found."), db_two_users).
Proof.
  do 7 (split; [reflexivity|]).
  destruct (unknown_id_is_not_found db_two_users 1 user1_delete_7
              user1_get_playlist_7 7 eq_refl eq_refl eq_refl eq_refl)
    as (Hp & Hs & Ht).
  split; [apply Hp; [reflexivity|discriminate]|].
  split; [apply Hs; reflexivity|apply Ht; reflexivity].
Defined.

Lemma owner_of_nothing_lists_nothing_witness :
  authenticated_user db_newcomer user3_get = Some 3
  ∧ authenticated_user db_newcomer user3_get_playlists = Some 3
  ∧ (∀ pk p, Playlist_objects db_newcomer !! pk = Some p → playlist_user p ≠ 3)
  ∧ (∀ pk s, Song_objects db_newcomer !! pk = Some s → song_user s ≠ 3)
  ∧ (∀ pk t, Tag_objects db_newcomer !! pk = Some t → tag_user t ≠ 3)
  ∧ PlaylistViewSet.view db_newcomer user3_get_playlists
    = (mkResponse 200 (Array []), db_newcomer)
  ∧ SongViewSet.view db_newcomer user3_get
    = (mkResponse 200 (Array []), db_newcomer)
  ∧ TagViewSet.view db_newcomer user3_get
    = (mkResponse 200 (Array []), db_newcomer).
Proof.
  assert (∀ pk p, Playlist_objects db_newcomer !! pk = Some p
                  → playlist_user p ≠ 3) as Hp.
  { intros pk p H. simpl in H. written_rows; discriminate. }
  assert (∀ pk s, Song_objects db_newcomer !! pk = Some s → song_user s ≠ 3)
    as Hs.
  { intros pk s H. simpl in H. written_rows; discriminate. }
  assert (∀ pk t, Tag_objects db_newcomer !! pk = Some t → tag_user t ≠ 3)
    as Ht.
  { intros pk t H. simpl in H. written_rows; discriminate. }
  split; [reflexivity|]. split; [reflexivity|].
  split; [exact Hp|]. split; [exact Hs|]. split; [exact Ht|].
  destruct (owner_of_nothing_lists_nothing db_newcomer 3 user3_get
              user3_get_playlists eq_refl eq_refl eq_refl eq_refl eq_refl
              eq_refl) as (Hpl & Hsl & Htl).
  split; [exact (Hpl Hp)|]. split; [exact (Hsl Hs)|exact (Htl Ht)].
Defined.

Lemma playlist_list_depends_on_own_playlists_only_witness :
  authenticated_user db_two_users user1_get_playlists = Some 1
  ∧ authenticated_user db_two_users_later user1_get_playlists = Some 1
  ∧ method user1_get_playlists = GET
  ∧ route user1_get_playlists = list_route
  ∧ (∀ pk p, playlist_user p = 1 →
       (Playlist_objects db_two_users !! pk = Some p
        ↔ Playlist_objects db_two_users_later !! pk = Some p))
  ∧ (PlaylistViewSet.view db_two_users user1_get_playlists).1
    = (PlaylistViewSet.view db_two_users_later user1_get_playlists).1.
Proof.
  assert (∀ pk p, playlist_user p = 1 →
            (Playlist_objects db_two_users !! pk = Some p
             ↔ Playlist_objects db_two_users_later !! pk = Some p)) as Hsame.
  { intros pk p Hu. simpl. split; intros H; written_rows; try discriminate;
      reflexivity. }
  do 4 (split; [reflexivity|]). split; [exact Hsame|].
  exact (playlist_list_depends_on_own_playlists_only db_two_users
           db_two_users_later 1 user1_get_playlists eq_refl eq_refl eq_refl
           eq_refl Hsame).
Defined.

Lemma song_and_tag_lists_depend_on_own_rows_only_witness :
  authenticated_user db_two_users user1_get = Some 1
  ∧ authenticated_user db_two_users_later user1_get = Some 1
  ∧ method user1_get = GET
  ∧ route user1_get = list_route
  ∧ (∀ pk s, song_user s = 1 →
       (Song_objects db_two_users !! pk = Some s
        ↔ Song_objects db_two_users_later !! pk = Some s))
  ∧ (∀ pk t, tag_user t = 1 →
       (Tag_objects db_two_users !! pk = Some t
        ↔ Tag_objects db_two_users_later !! pk = Some t))
  ∧ (∃ l1 l2,
       (SongViewSet.view db_two_users user1_get).1 = mkResponse 200 (Array l1)
       ∧ (SongViewSet.view db_two_users_later user1_get).1
         = mkResponse 200 (Array l2)
       ∧ l1 ≡ₚ l2)
  ∧ (∃ l1 l2,
       (TagViewSet.view db_two_users user1_get).1 = mkResponse 200 (Array l1)
       ∧ (TagViewSet.view db_two_users_later user1_get).1
         = mkResponse 200 (Array l2)
       ∧ l1 ≡ₚ l2).
Proof.
  assert (∀ pk s, song_user s = 1 →
            (Song_objects db_two_users !! pk = Some s
             ↔ Song_objects db_two_users_later !! pk = Some s)) as Hsongs.
  { intros pk s Hu. simpl. split; intros H; written_rows; try discriminate;
      reflexivity. }
  assert (∀ pk t, tag_user t = 1 →
            (Tag_objects db_two_users !! pk = Some t
             ↔ Tag_objects db_two_users_later !! pk = Some t)) as Htags.
  { intros pk t Hu. simpl. split; intros H; written_rows; try discriminate;
      reflexivity. }
  do 4 (split; [reflexivity|]). split; [exact Hsongs|]. split; [exact Htags|].
  destruct (song_and_tag_lists_depend_on_own_rows_only db_two_users
              db_two_users_later 1 user1_get eq_refl eq_refl eq_refl eq_refl)
    as (Hs & Ht).
  split; [exact (Hs Hsongs)|exact (Ht Htags)].
Defined.

Lemma deleting_own_song_witness :
  authenticated_user db_two_users user1_delete_2 = Some 1
  ∧ method user1_delete_2 = DELETE
  ∧ route user1_delete_2 = detail_route 2
  ∧ Song_objects db_two_users !! 2 = Some (mkSong "Love Buzz" "Nirvana" 1)
  ∧ song_user (mkSong "Love Buzz" "Nirvana" 1) = 1
  ∧ ∃ st',
      SongViewSet.view db_two_users user1_delete_2 = (mkResponse 204 Empty, st')
      ∧ Song_objects st' = delete 2 (Song_objects db_two_users)
      ∧ (∀ playlist song,
           (playlist, song) ∈ playlist_songs st' ↔
           (playlist, song) ∈ playlist_songs db_two_users ∧ song ≠ 2)
      ∧ Tag_objects st' = Tag_objects db_two_users
      ∧ Playlist_objects st' = Playlist_objects db_two_users
      ∧ playlist_tags st' = playlist_tags db_two_users
      ∧ Token_objects st' = Token_objects db_two_users
      ∧ SongViewSet.view st' user1_delete_2
        = (mkResponse 404 (Detail "Not found."), st').
Proof.
  do 5 (split; [reflexivity|]).
  exact (deleting_own_song db_two_users 1 user1_delete_2 2
           (mkSong "Love Buzz" "Nirvana" 1) eq_refl eq_refl eq_refl eq_refl
           eq_refl).
Defined.

Lemma deleting_own_playlist_witness :
  authenticated_user db_two_users user1_delete_playlist_1 = Some 1
  ∧ method user1_delete_playlist_1 = DELETE
  ∧ route user1_delete_playlist_1 = detail_route 1
  ∧ Playlist_objects db_two_users !! 1
    = Some (mkPlaylist "Bleach" 42 "Grunge" 1)
  ∧ playlist_user (mkPlaylist "Bleach" 42 "Grunge" 1) = 1
  ∧ ∃ st',
      PlaylistViewSet.view db_two_users user1_delete_playlist_1
      = (mkResponse 204 Empty, st')
      ∧ Playlist_objects st' = delete 1 (Playlist_objects db_two_users)
      ∧ (∀ playlist song,
           (playlist, song) ∈ playlist_songs st' ↔
           (playlist, song) ∈ playlist_songs db_two_users ∧ playlist ≠ 1)
      ∧ (∀ playlist tag,
           (playlist, tag) ∈ playlist_tags st' ↔
           (playlist, tag) ∈ playlist_tags db_two_users ∧ playlist ≠ 1)
      ∧ Song_objects st' = Song_objects db_two_users
      ∧ Tag_objects st' = Tag_objects db_two_users
      ∧ Token_objects st' = Token_objects db_two_users
      ∧ PlaylistViewSet.view st' user1_delete_playlist_1
        = (mkResponse 404 (Detail "Not found."), st').
Proof.
  do 5 (split; [reflexivity|]).
  exact (deleting_own_playlist db_two_users 1 user1_delete_playlist_1 1
           (mkPlaylist "Bleach" 42 "Grunge" 1) eq_refl eq_refl eq_refl
           eq_refl eq_refl).
Defined.

Lemma created_playlist_heads_the_list_witness :
  authenticated_user db_two_users user1_post_playlist = Some 1
  ∧ method user1_post_playlist = POST
  ∧ route user1_post_playlist = list_route
  ∧ PlaylistSerializer.missing (data user1_post_playlist) = []
  ∧ HTTP_AUTHORIZATION user1_get_playlists
    = HTTP_AUTHORIZATION user1_post_playlist
  ∧ method user1_get_playlists = GET
  ∧ route user1_get_playlists = list_route
  ∧ ∃ pk p st' before,
      PlaylistViewSet.view db_two_users user1_post_playlist =
      (mkResponse 201 (Object (PlaylistSerializer.detail st' (pk, p))), st')
      ∧ p_title (data user1_post_playlist) = Some (title p)
      ∧ p_time_minutes (data user1_post_playlist) = Some (time_minutes p)
      ∧ p_general_genre (data user1_post_playlist) = Some (general_genre p)
      ∧ (PlaylistViewSet.view db_two_users user1_get_playlists).1
        = mkResponse 200 (Array before)
      ∧ (PlaylistViewSet.view st' user1_get_playlists).1
        = mkResponse 200
            (Array (PlaylistSerializer.summary st' (pk, p) :: before)).
Proof.
  do 7 (split; [reflexivity|]).
  exact (created_playlist_heads_the_list db_two_users 1 user1_post_playlist
           user1_get_playlists eq_refl eq_refl eq_refl eq_refl eq_refl eq_refl
           eq_refl).
Defined.

Lemma song_list_of_sole_owner_witness :
  authenticated_user db_assigned get_assigned_only = Some 1
  ∧ method get_assigned_only = GET
  ∧ route get_assigned_only = list_route
  ∧ (∀ pk s, Song_objects db_assigned !! pk = Some s → song_user s = 1)
  ∧ SongViewSet.view db_assigned get_assigned_only =
    (mkResponse 200
       (Array (to_representation SongSerializer db_assigned
                 <$> QuerySet.order_by_desc_name song_name
                       (QuerySet.all (Song_objects db_assigned)))),
     db_assigned).
Proof.
  assert (∀ pk s, Song_objects db_assigned !! pk = Some s → song_user s = 1)
    as Hall.
  { intros pk s H. simpl in H. written_rows; reflexivity. }
  do 3 (split; [reflexivity|]). split; [exact Hall|].
  exact (song_list_of_sole_owner db_assigned 1 get_assigned_only eq_refl
           eq_refl eq_refl Hall).
Defined.

Lemma playlist_written_is_playlist_read_witness :
  authenticated_user db_two_users user1_post_playlist = Some 1
  ∧ method user1_post_playlist ≠ GET
  ∧ method user1_post_playlist ≠ DELETE
  ∧ status_code (PlaylistViewSet.view db_two_users user1_post_playlist).1 < 300
  ∧ ∃ written st',
      (PlaylistViewSet.view db_two_users user1_post_playlist).2 = st'
      ∧ content (PlaylistViewSet.view db_two_users user1_post_playlist).1
        = Object written
      ∧ ∀ preq' : Request PlaylistPayload,
          HTTP_AUTHORIZATION preq' = HTTP_AUTHORIZATION user1_post_playlist →
          method preq' = GET → route preq' = detail_route (pd_id written) →
          PlaylistViewSet.view st' preq'
          = (mkResponse 200 (Object written), st').
Proof.
  assert (status_code (PlaylistViewSet.view db_two_users user1_post_playlist).1
          < 300) as Hstatus by (vm_compute; lia).
  split; [reflexivity|]. split; [discriminate|]. split; [discriminate|].
  split; [exact Hstatus|].
  exact (playlist_written_is_playlist_read db_two_users 1 user1_post_playlist
           eq_refl ltac:(discriminate) ltac:(discriminate) Hstatus).
Defined.
